(** * tendermint-mpc-validator: the sign-state watermark, the payload
      inspector, the cosigner key file and the reconnecting remote signer

    A shallow embedding of the Go sources

      - [internal/signer/SignState.go]    (watermark check, load, save,
                                           timestamp-only comparison)
      - the serialization helpers         ([UnpackHRS])
      - the two revisions of the cosigner key file ([CosignerKey])
      - [internal/signer/RemoteSigner.go] (request dispatch, service loop)
      - [cmd/signer/main.go]              (start-up validation)

    Go values are modelled as follows.  [int64], [int8] and [int] are [Z]:
    the code only compares them, so no wrap-around is involved.  A slice
    is [option (list A)], with [None] for Go's [nil], because
    [SignState.CheckHRS] tests its slices against [nil].  A Go [error] is
    its message, [nil] being [None].  A function that may panic returns an
    [outcome].  Library calls (the amino codec, x509, encoding/json, the
    file system) are operations of interfaces the embedding is
    parametrised by. *)

From Stdlib Require Import ZArith Lia Bool.
From Stdlib Require Import Strings.Byte.
From stdpp Require Import base option list strings gmap pretty.

Local Open Scope string_scope.
Local Open Scope Z_scope.

(** ** Go values *)

#[global] Instance byte_eq_dec : EqDecision byte := Byte.byte_eq_dec.

Module Go.

(** A slice: [None] is the nil slice, [Some []] an empty, non-nil one. *)
Definition slice (A : Type) : Type := option (list A).

Definition elems {A} (s : slice A) : list A :=
  match s with Some l => l | None => [] end.

(** [len(s)] *)
Definition len {A} (s : slice A) : Z := Z.of_nat (length (elems s)).

Definition bytes : Type := slice byte.

(** [bytes.Equal]: a nil slice equals an empty one. *)
Definition bytes_Equal (a b : list byte) : bool :=
  bool_decide (a = b).

(** The Go [error] interface, by the text [Error()] returns. *)
Definition error : Type := string.

(** What a call leaves behind: a value, or a panic that unwinds the
    goroutine (and, uncaught, ends the process). *)
Inductive outcome (A : Type) : Type :=
| Ret (a : A)
| Panic (msg : string).
Arguments Ret {A} a.
Arguments Panic {A} msg.

Definition bind {A B} (m : outcome A) (k : A -> outcome B) : outcome B :=
  match m with
  | Ret a => k a
  | Panic msg => Panic msg
  end.

Definition panics {A} (m : outcome A) : Prop :=
  match m with Panic _ => True | Ret _ => False end.

Definition returns {A} (m : outcome A) : Prop :=
  match m with Ret _ => True | Panic _ => False end.

(** A library call returning [(T, error)] of which only one side is
    meaningful. *)
Inductive result (A : Type) : Type :=
| Ok (a : A)
| Err (e : error).
Arguments Ok {A} a.
Arguments Err {A} e.

Definition is_Ok {A} (r : result A) : Prop :=
  match r with Ok _ => True | Err _ => False end.

Definition is_Err {A} (r : result A) : Prop :=
  match r with Err _ => True | Ok _ => False end.

End Go.

Export Go.

Notation "'call' x <- m ; k" := (Go.bind m (fun x => k))
  (at level 10, x name, m at level 100, k at level 200).

(** ** The sign state *)

Definition stepNone : Z := 0.
Definition stepPropose : Z := 1.
Definition stepPrevote : Z := 2.
Definition stepPrecommit : Z := 3.

Record SignState : Type := mkSignState {
  Height : Z;
  Round : Z;
  Step : Z;
  EphemeralPublic : bytes;
  Signature : bytes;
  SignBytes : bytes;
  filePath : string
}.

(** [SignState{}] *)
Definition SignState_zero : SignState :=
  {| Height := 0; Round := 0; Step := 0; EphemeralPublic := None;
     Signature := None; SignBytes := None; filePath := "" |}.

Definition with_filePath (st : SignState) (p : string) : SignState :=
  {| Height := Height st; Round := Round st; Step := Step st;
     EphemeralPublic := EphemeralPublic st; Signature := Signature st;
     SignBytes := SignBytes st; filePath := p |}.

(** [%v] of an integer *)
Definition fmt_v (z : Z) : string := pretty z.

(** [SignState.CheckHRS]: the three nested comparisons of the source, the
    value being Go's [(bool, error)]. *)
Definition CheckHRS (signState : SignState) (height round step : Z)
  : outcome (bool * option error) :=
  if Height signState >? height then
    Ret (false, Some ("height regression. Got " +:+ fmt_v height +:+
                      ", last height " +:+ fmt_v (Height signState)))
  else
    if Height signState =? height then
      if Round signState >? round then
        Ret (false, Some ("round regression at height " +:+ fmt_v height +:+
                          ". Got " +:+ fmt_v round +:+
                          ", last round " +:+ fmt_v (Round signState)))
      else
        if Round signState =? round then
          if Step signState >? step then
            Ret (false, Some ("step regression at height " +:+ fmt_v height +:+
                              " round " +:+ fmt_v round +:+
                              ". Got " +:+ fmt_v step +:+
                              ", last step " +:+ fmt_v (Step signState)))
          else if Step signState =? step then
            match SignBytes signState with
            | Some _ =>
                match Signature signState with
                | None => Panic "pv: Signature is nil but SignBytes is not!"
                | Some _ => Ret (true, None)
                end
            | None => Ret (false, Some "no SignBytes found")
            end
          else Ret (false, None)
        else Ret (false, None)
    else Ret (false, None).

(** The three verdicts of the specification, read off the Go result. *)
Definition Regression (o : outcome (bool * option error)) : Prop :=
  exists b e, o = Ret (b, Some e).

Definition Replay (o : outcome (bool * option error)) : Prop :=
  o = Ret (true, None).

Definition FreshOK (o : outcome (bool * option error)) : Prop :=
  o = Ret (false, None).

(** Lexicographic order on (height, round, step). *)
Definition HRS : Type := Z * Z * Z.

Definition hrs_of (st : SignState) : HRS := (Height st, Round st, Step st).

Definition hrs_lt (a b : HRS) : Prop :=
  let '(h1, r1, s1) := a in
  let '(h2, r2, s2) := b in
  h1 < h2 \/ (h1 = h2 /\ (r1 < r2 \/ (r1 = r2 /\ s1 < s2))).

(** "empty" and "non-empty" sign bytes, by length *)
Definition empty {A} (s : slice A) : Prop := elems s = [].
Definition non_empty {A} (s : slice A) : Prop := elems s <> [].

(** The verdict table as the specification words it. *)
Definition CheckHRS_table (S : SignState) (h r s : Z) : Prop :=
  (Regression (CheckHRS S h r s) <->
     hrs_lt (h, r, s) (hrs_of S) \/ ((h, r, s) = hrs_of S /\ empty (SignBytes S)))
  /\ (Replay (CheckHRS S h r s) <->
        (h, r, s) = hrs_of S /\ non_empty (SignBytes S))
  /\ (FreshOK (CheckHRS S h r s) <-> hrs_lt (hrs_of S) (h, r, s)).

(** The state of the counterexample to the verdict table: the watermark
    (1, 0, propose) with a payload recorded and no signature. *)
Definition unsigned_state : SignState :=
  {| Height := 1; Round := 0; Step := stepPropose; EphemeralPublic := None;
     Signature := None; SignBytes := Some [x01%byte]; filePath := "state.json" |}.

(** A state at the same watermark as [unsigned_state] that does hold a
    signature. *)
Definition signed_state : SignState :=
  {| Height := 1; Round := 0; Step := stepPropose; EphemeralPublic := None;
     Signature := Some [x2a%byte]; SignBytes := Some [x01%byte];
     filePath := "state.json" |}.

(** ** Canonical payloads *)

(** [time.Time], as seconds and nanoseconds of the Unix clock; the zero
    value [time.Time{}] is the first instant of year 1. *)
Record Time : Type := mkTime { unix_sec : Z; nsec : Z }.

Definition Time_zero : Time := {| unix_sec := -62135596800; nsec := 0 |}.

#[global] Instance Time_eq_dec : EqDecision Time.
Proof. solve_decision. Defined.

(** [types.SignedMsgType] *)
Definition PrevoteType : Z := 1.
Definition PrecommitType : Z := 2.
Definition ProposalType : Z := 32.

(** The block id is opaque to the signer: it is carried in encoded form. *)
Definition CanonicalBlockID : Type := list byte.

Module CanonicalVote.
Record t : Type := mk {
  Type_ : Z;
  Height : Z;
  Round : Z;
  BlockID : CanonicalBlockID;
  Timestamp : Time;
  ChainID : string
}.
(** [vote.Timestamp = ts] *)
Definition set_Timestamp (v : t) (ts : Time) : t :=
  {| Type_ := Type_ v; Height := Height v; Round := Round v;
     BlockID := BlockID v; Timestamp := ts; ChainID := ChainID v |}.
End CanonicalVote.

Module CanonicalProposal.
Record t : Type := mk {
  Type_ : Z;
  Height : Z;
  Round : Z;
  POLRound : Z;
  BlockID : CanonicalBlockID;
  Timestamp : Time;
  ChainID : string
}.
(** [proposal.Timestamp = ts] *)
Definition set_Timestamp (p : t) (ts : Time) : t :=
  {| Type_ := Type_ p; Height := Height p; Round := Round p;
     POLRound := POLRound p; BlockID := BlockID p; Timestamp := ts;
     ChainID := ChainID p |}.
End CanonicalProposal.

(** ** The codec

    The calls the package makes on its amino codec [cdc], one operation
    per call site and target type.  Decoders take the bytes of the slice
    (nil and empty decode alike). *)
Class Codec : Type := {
  (** [cdc.UnmarshalBinaryLengthPrefixed(bz, &vote)] *)
  UnmarshalVote : list byte -> result CanonicalVote.t;
  (** [cdc.UnmarshalBinaryLengthPrefixed(bz, &proposal)] *)
  UnmarshalProposal : list byte -> result CanonicalProposal.t;
  (** [cdc.MarshalJSON(vote)] *)
  MarshalJSON_vote : CanonicalVote.t -> result (list byte);
  (** [cdc.MarshalBinaryLengthPrefixed(proposal)] *)
  MarshalProposal : CanonicalProposal.t -> result (list byte);
  (** [cdc.MarshalJSONIndent(signState, "", "  ")]: the exported fields *)
  MarshalJSONIndent : SignState -> result (list byte);
  (** [cdc.UnmarshalJSON(bz, &state)]: the struct behind the pointer after
      the call, and the error *)
  UnmarshalJSON : list byte -> SignState -> SignState * option error
}.

(** [bz, _ := cdc.Marshal...(x)]: the error is dropped, and the bytes
    that come with an error are nil. *)
Definition drop_err (r : result (list byte)) : list byte :=
  match r with
  | Ok bz => bz
  | Err _ => []
  end.

Section Inspector.

Context `{Codec}.

Definition CanonicalVoteToStep (vote : CanonicalVote.t) : outcome Z :=
  if CanonicalVote.Type_ vote =? PrevoteType then Ret stepPrevote
  else if CanonicalVote.Type_ vote =? PrecommitType then Ret stepPrecommit
  else Panic "Unknown vote type".

(** [UnpackHRS]: height, round, step and error. *)
Definition UnpackHRS (signBytes : bytes) : outcome (Z * Z * Z * option error) :=
  match UnmarshalProposal (elems signBytes) with
  | Ok proposal =>
      Ret (CanonicalProposal.Height proposal, CanonicalProposal.Round proposal,
           stepPropose, None)
  | Err _ =>
      match UnmarshalVote (elems signBytes) with
      | Ok vote =>
          call step <- CanonicalVoteToStep vote;
          Ret (CanonicalVote.Height vote, CanonicalVote.Round vote, step, None)
      | Err _ =>
          Ret (0, 0, 0, Some "Could not UnpackHRS from sign bytes")
      end
  end.

(** [checkVoteOnlyDifferByTimestamp]; [now] is what [tmtime.Now()]
    returns. *)
Definition checkVoteOnlyDifferByTimestamp
  (lastSignBytes newSignBytes : bytes) (now : Time) : outcome (Time * bool) :=
  match UnmarshalVote (elems lastSignBytes) with
  | Err err =>
      Panic ("LastSignBytes cannot be unmarshalled into vote: " +:+ err)
  | Ok lastVote =>
      match UnmarshalVote (elems newSignBytes) with
      | Err err =>
          Panic ("signBytes cannot be unmarshalled into vote: " +:+ err)
      | Ok newVote =>
          let lastTime := CanonicalVote.Timestamp lastVote in
          let lastVote := CanonicalVote.set_Timestamp lastVote now in
          let newVote := CanonicalVote.set_Timestamp newVote now in
          let lastVoteBytes := drop_err (MarshalJSON_vote lastVote) in
          let newVoteBytes := drop_err (MarshalJSON_vote newVote) in
          Ret (lastTime, bytes_Equal newVoteBytes lastVoteBytes)
      end
  end.

(** [checkProposalOnlyDifferByTimestamp] *)
Definition checkProposalOnlyDifferByTimestamp
  (lastSignBytes newSignBytes : bytes) (now : Time) : outcome (Time * bool) :=
  match UnmarshalProposal (elems lastSignBytes) with
  | Err err =>
      Panic ("LastSignBytes cannot be unmarshalled into proposal: " +:+ err)
  | Ok lastProposal =>
      match UnmarshalProposal (elems newSignBytes) with
      | Err err =>
          Panic ("signBytes cannot be unmarshalled into proposal: " +:+ err)
      | Ok newProposal =>
          let lastTime := CanonicalProposal.Timestamp lastProposal in
          let lastProposal := CanonicalProposal.set_Timestamp lastProposal now in
          let newProposal := CanonicalProposal.set_Timestamp newProposal now in
          let lastProposalBytes := drop_err (MarshalProposal lastProposal) in
          let newProposalBytes := drop_err (MarshalProposal newProposal) in
          Ret (lastTime, bytes_Equal newProposalBytes lastProposalBytes)
      end
  end.

(** [SignState.OnlyDifferByTimestamp] *)
Definition OnlyDifferByTimestamp
  (signState : SignState) (signBytes : bytes) (now : Time)
  : outcome (Time * bool) :=
  if Step signState =? stepPropose then
    checkProposalOnlyDifferByTimestamp (SignBytes signState) signBytes now
  else if (Step signState =? stepPrevote) || (Step signState =? stepPrecommit) then
    checkVoteOnlyDifferByTimestamp (SignBytes signState) signBytes now
  else Ret (Time_zero, false).

End Inspector.

(** ** A reference codec

    An instance of [Codec] on a small field-tagged wire format in the
    style of the binary encoding: a message is a length byte followed by
    fields, a field is a key byte [8 * number + kind] followed by its
    value; kind 0 is a one-byte integer, kind 1 a 64-bit little-endian
    integer, kind 2 a length byte and that many bytes.  Fields holding the
    zero value are left out.  The instance runs the embedding on concrete
    payloads; the properties below hold for every codec. *)
Module RefCodec.

Definition byte_of_Z (z : Z) : byte :=
  default x00%byte (Byte.of_N (Z.to_N (z mod 256))).

Definition Z_of_byte (b : byte) : Z := Z.of_N (Byte.to_N b).

Fixpoint le_encode (n : nat) (z : Z) : list byte :=
  match n with
  | O => []
  | S n' => byte_of_Z z :: le_encode n' (z / 256)
  end.

Fixpoint le_decode (bs : list byte) : Z :=
  match bs with
  | [] => 0
  | b :: bs' => Z_of_byte b + 256 * le_decode bs'
  end.

(** 64-bit two's complement *)
Definition int64_decode (bs : list byte) : Z :=
  let u := le_decode bs in
  if u <? 2 ^ 63 then u else u - 2 ^ 64.

Definition key (number kind : Z) : Z := 8 * number + kind.

Definition field_byte (number z : Z) : list byte :=
  if z =? 0 then [] else [byte_of_Z (key number 0); byte_of_Z z].

Definition field_fixed64 (number z : Z) : list byte :=
  if z =? 0 then [] else byte_of_Z (key number 1) :: le_encode 8 z.

Definition field_bytes (number : Z) (bs : list byte) : list byte :=
  match bs with
  | [] => []
  | _ => byte_of_Z (key number 2) :: byte_of_Z (Z.of_nat (length bs)) :: bs
  end.

Definition length_prefixed (body : list byte) : list byte :=
  byte_of_Z (Z.of_nat (length body)) :: body.

(** The fields of a message body, as (key, value bytes). *)
Fixpoint fields (fuel : nat) (bs : list byte) : option (list (Z * list byte)) :=
  match bs, fuel with
  | [], _ => Some []
  | _ :: _, O => None
  | k :: rest, S fuel' =>
      let kz := Z_of_byte k in
      if kz mod 8 =? 0 then
        match rest with
        | v :: rest' => cons (kz, [v]) <$> fields fuel' rest'
        | [] => None
        end
      else if kz mod 8 =? 1 then
        if (8 <=? length rest)%nat
        then cons (kz, take 8 rest) <$> fields fuel' (drop 8 rest)
        else None
      else if kz mod 8 =? 2 then
        match rest with
        | l :: rest' =>
            let n := Z.to_nat (Z_of_byte l) in
            if (n <=? length rest')%nat
            then cons (kz, take n rest') <$> fields fuel' (drop n rest')
            else None
        | [] => None
        end
      else None
  end.

(** A length-prefixed message whose keys all belong to [schema]. *)
Definition message (schema : list Z) (bs : list byte)
  : result (list (Z * list byte)) :=
  match bs with
  | [] => Err "cannot decode empty bytes"
  | l :: body =>
      if negb (Z_of_byte l =? Z.of_nat (length body)) then Err "wrong length prefix"
      else
        match fields (length body) body with
        | None => Err "malformed field"
        | Some fs =>
            if forallb (fun kv => bool_decide (kv.1 ∈ schema)) fs
            then Ok fs
            else Err "unexpected field"
        end
  end.

Fixpoint value (k : Z) (fs : list (Z * list byte)) : list byte :=
  match fs with
  | [] => []
  | (k', v) :: fs' => if k' =? k then v else value k fs'
  end.

Definition get_byte (number : Z) fs : Z := le_decode (value (key number 0) fs).
Definition get_fixed64 (number : Z) fs : Z := int64_decode (value (key number 1) fs).
Definition get_bytes (number : Z) fs : list byte := value (key number 2) fs.

Definition time_encode (t : Time) : list byte :=
  if bool_decide (t = Time_zero) then []
  else le_encode 8 (unix_sec t) ++ le_encode 8 (nsec t).

Definition time_decode (bs : list byte) : Time :=
  match bs with
  | [] => Time_zero
  | _ => {| unix_sec := int64_decode (take 8 bs);
            nsec := int64_decode (drop 8 bs) |}
  end.

Definition vote_schema : list Z :=
  [key 1 0; key 2 1; key 3 1; key 4 2; key 5 2; key 6 2].

Definition proposal_schema : list Z :=
  [key 1 0; key 2 1; key 3 1; key 4 1; key 5 2; key 6 2; key 7 2].

Definition encode_vote (v : CanonicalVote.t) : list byte :=
  length_prefixed
    (field_byte 1 (CanonicalVote.Type_ v) ++
     field_fixed64 2 (CanonicalVote.Height v) ++
     field_fixed64 3 (CanonicalVote.Round v) ++
     field_bytes 4 (CanonicalVote.BlockID v) ++
     field_bytes 5 (time_encode (CanonicalVote.Timestamp v)) ++
     field_bytes 6 (String.list_byte_of_string (CanonicalVote.ChainID v))).

Definition decode_vote (bs : list byte) : result CanonicalVote.t :=
  match message vote_schema bs with
  | Err e => Err e
  | Ok fs =>
      Ok {| CanonicalVote.Type_ := get_byte 1 fs;
            CanonicalVote.Height := get_fixed64 2 fs;
            CanonicalVote.Round := get_fixed64 3 fs;
            CanonicalVote.BlockID := get_bytes 4 fs;
            CanonicalVote.Timestamp := time_decode (get_bytes 5 fs);
            CanonicalVote.ChainID := String.string_of_list_byte (get_bytes 6 fs) |}
  end.

Definition encode_proposal (p : CanonicalProposal.t) : list byte :=
  length_prefixed
    (field_byte 1 (CanonicalProposal.Type_ p) ++
     field_fixed64 2 (CanonicalProposal.Height p) ++
     field_fixed64 3 (CanonicalProposal.Round p) ++
     field_fixed64 4 (CanonicalProposal.POLRound p) ++
     field_bytes 5 (CanonicalProposal.BlockID p) ++
     field_bytes 6 (time_encode (CanonicalProposal.Timestamp p)) ++
     field_bytes 7 (String.list_byte_of_string (CanonicalProposal.ChainID p))).

Definition decode_proposal (bs : list byte) : result CanonicalProposal.t :=
  match message proposal_schema bs with
  | Err e => Err e
  | Ok fs =>
      Ok {| CanonicalProposal.Type_ := get_byte 1 fs;
            CanonicalProposal.Height := get_fixed64 2 fs;
            CanonicalProposal.Round := get_fixed64 3 fs;
            CanonicalProposal.POLRound := get_fixed64 4 fs;
            CanonicalProposal.BlockID := get_bytes 5 fs;
            CanonicalProposal.Timestamp := time_decode (get_bytes 6 fs);
            CanonicalProposal.ChainID := String.string_of_list_byte (get_bytes 7 fs) |}
  end.

(** The sign state file: the exported fields; [signature] and
    [signbytes] are left out when empty. *)
Definition state_schema : list Z :=
  [key 1 1; key 2 1; key 3 0; key 4 2; key 5 2; key 6 2].

Definition encode_state (st : SignState) : list byte :=
  length_prefixed
    (field_fixed64 1 (Height st) ++
     field_fixed64 2 (Round st) ++
     field_byte 3 (Step st) ++
     field_bytes 4 (elems (EphemeralPublic st)) ++
     field_bytes 5 (elems (Signature st)) ++
     field_bytes 6 (elems (SignBytes st))).

Definition get_slice (number : Z) fs : bytes :=
  match get_bytes number fs with
  | [] => None
  | bs => Some bs
  end.

Definition decode_state (bs : list byte) (st : SignState)
  : SignState * option error :=
  match message state_schema bs with
  | Err e => (st, Some e)
  | Ok fs =>
      ({| Height := get_fixed64 1 fs;
          Round := get_fixed64 2 fs;
          Step := get_byte 3 fs;
          EphemeralPublic := get_slice 4 fs;
          Signature := get_slice 5 fs;
          SignBytes := get_slice 6 fs;
          filePath := filePath st |}, None)
  end.

#[export] Instance codec : Codec := {|
  UnmarshalVote := decode_vote;
  UnmarshalProposal := decode_proposal;
  MarshalJSON_vote v := Ok (encode_vote v);
  MarshalProposal p := Ok (encode_proposal p);
  MarshalJSONIndent st := Ok (encode_state st);
  UnmarshalJSON := decode_state
|}.

End RefCodec.

(** Payloads on the reference codec: a proposal at (10, 0), the same
    proposal with a later timestamp, one for another block, and a bare
    prevote at (3, 4) that carries nothing but type, height and round. *)
Definition proposal_P1 : CanonicalProposal.t :=
  {| CanonicalProposal.Type_ := ProposalType;
     CanonicalProposal.Height := 10; CanonicalProposal.Round := 0;
     CanonicalProposal.POLRound := -1;
     CanonicalProposal.BlockID := [xaa%byte; xbb%byte];
     CanonicalProposal.Timestamp := {| unix_sec := 1600000000; nsec := 5 |};
     CanonicalProposal.ChainID := "test-chain" |}.

Definition proposal_P1_later : CanonicalProposal.t :=
  CanonicalProposal.set_Timestamp proposal_P1 {| unix_sec := 1600000007; nsec := 0 |}.

Definition proposal_P2 : CanonicalProposal.t :=
  {| CanonicalProposal.Type_ := ProposalType;
     CanonicalProposal.Height := 10; CanonicalProposal.Round := 0;
     CanonicalProposal.POLRound := -1;
     CanonicalProposal.BlockID := [xcc%byte; xdd%byte];
     CanonicalProposal.Timestamp := {| unix_sec := 1600000000; nsec := 5 |};
     CanonicalProposal.ChainID := "test-chain" |}.

Definition bare_prevote : CanonicalVote.t :=
  {| CanonicalVote.Type_ := PrevoteType;
     CanonicalVote.Height := 3; CanonicalVote.Round := 4;
     CanonicalVote.BlockID := [];
     CanonicalVote.Timestamp := Time_zero;
     CanonicalVote.ChainID := "" |}.

Definition state_after_P1 : SignState :=
  {| Height := 10; Round := 0; Step := stepPropose; EphemeralPublic := None;
     Signature := Some [x2a%byte];
     SignBytes := Some (RefCodec.encode_proposal proposal_P1);
     filePath := "state.json" |}.

(** The payload re-encoded with the placeholder timestamp, as the two
    comparison functions build it. *)
Definition reencoded_vote `{Codec} (now : Time) (v : CanonicalVote.t) : list byte :=
  drop_err (MarshalJSON_vote (CanonicalVote.set_Timestamp v now)).

Definition reencoded_proposal `{Codec} (now : Time) (p : CanonicalProposal.t)
  : list byte :=
  drop_err (MarshalProposal (CanonicalProposal.set_Timestamp p now)).

(** [UnpackHRS] as the specification words it: the vote decoding is tried
    first, the proposal decoding only when that fails. *)
Definition UnpackHRS_vote_first `{Codec} (signBytes : bytes) : Prop :=
  match UnmarshalVote (elems signBytes) with
  | Ok vote =>
      UnpackHRS signBytes =
      (call step <- CanonicalVoteToStep vote;
       Ret (CanonicalVote.Height vote, CanonicalVote.Round vote, step, None))
  | Err _ =>
      match UnmarshalProposal (elems signBytes) with
      | Ok proposal =>
          UnpackHRS signBytes =
          Ret (CanonicalProposal.Height proposal,
               CanonicalProposal.Round proposal, stepPropose, None)
      | Err _ => exists h r s e, UnpackHRS signBytes = Ret (h, r, s, Some e)
      end
  end.

(** The instant [tmtime.Now()] returns in the examples. *)
Definition now0 : Time := {| unix_sec := 1600000100; nsec := 0 |}.

(** ** The file system *)

(** A path names a regular file, with its content and permission bits,
    or a directory. *)
Inductive node : Type :=
| File (data : list byte) (perm : Z)
| Dir.

(** Octal 0600 and 0400 *)
Definition perm_0600 : Z := 6 * 64.
Definition perm_0400 : Z := 4 * 64.

(** [ioutil.ReadFile]: the file must exist, be regular and be readable by
    its owner. *)
Definition ReadFile (fs : gmap string node) (filename : string)
  : result (list byte) :=
  match fs !! filename with
  | None => Err ("open " +:+ filename +:+ ": no such file or directory")
  | Some Dir => Err ("read " +:+ filename +:+ ": is a directory")
  | Some (File data perm) =>
      if Z.land perm perm_0400 =? 0
      then Err ("open " +:+ filename +:+ ": permission denied")
      else Ok data
  end.

(** Where an atomic write can meet an I/O error: creating the temporary
    file, writing to it (after [n] bytes), flushing it, renaming it. *)
Inductive fault : Type :=
| AtCreate
| AtWrite (n : nat)
| AtSync
| AtRename.

(** What the environment decides for one atomic write: the random suffix
    of the temporary name and the fault met, if any. *)
Record io_env : Type := mkEnv {
  temp_suffix : string;
  io_fault : option fault
}.

Definition temp_name (filename suffix : string) : string :=
  filename +:+ (".tmp" +:+ suffix).

(** Modelled from the spec: [tempfile.WriteFileAtomic] of the tendermint
    library, which is not part of the sources.  The specification asks for
    a write-then-fsync-then-rename sequence through a temporary file: the
    temporary file is created next to the target, the data are written and
    flushed, and the file is renamed over the target.  The result lists
    the states the disk passes through, in order, the last one being the
    state the call leaves, and the error.  The specification does not say
    what happens when the temporary name is taken or after a fault; here
    the call then fails, and removes the temporary file it created.  These
    two choices only fix the disk a failed write leaves at paths other than
    the target. *)
Definition WriteFileAtomic
  (fs : gmap string node) (filename : string) (data : list byte) (perm : Z)
  (env : io_env) : list (gmap string node) * option error :=
  let tmp := temp_name filename (temp_suffix env) in
  match fs !! tmp with
  | Some _ => ([fs], Some ("open " +:+ tmp +:+ ": file exists"))
  | None =>
      let created := <[tmp := File [] perm]> fs in
      let written := <[tmp := File data perm]> fs in
      match io_fault env with
      | Some AtCreate => ([fs], Some ("open " +:+ tmp +:+ ": input/output error"))
      | Some (AtWrite n) =>
          let partial := <[tmp := File (take n data) perm]> fs in
          ([fs; created; partial; delete tmp partial],
           Some ("write " +:+ tmp +:+ ": input/output error"))
      | Some AtSync =>
          ([fs; created; written; delete tmp written],
           Some ("sync " +:+ tmp +:+ ": input/output error"))
      | Some AtRename =>
          ([fs; created; written; delete tmp written],
           Some ("rename " +:+ tmp +:+ ": input/output error"))
      | None =>
          ([fs; created; written;
            <[filename := File data perm]> (delete tmp written)], None)
      end
  end.

(** The write goes through: no fault, and the temporary name is free. *)
Definition write_succeeds (fs : gmap string node) (filename : string)
  (env : io_env) : Prop :=
  io_fault env = None /\ fs !! temp_name filename (temp_suffix env) = None.

Section Persistence.

Context `{Codec}.

(** [SignState.Save]: the states the disk passes through and the outcome
    of the call. *)
Definition Save (signState : SignState) (fs : gmap string node) (env : io_env)
  : list (gmap string node) * outcome unit :=
  let outFile := filePath signState in
  if bool_decide (outFile = "") then
    ([fs], Panic "cannot save SignState: filePath not set")
  else
    match MarshalJSONIndent signState with
    | Err err => ([fs], Panic err)
    | Ok jsonBytes =>
        match WriteFileAtomic fs outFile jsonBytes perm_0600 env with
        | (states, Some err) => (states, Panic err)
        | (states, None) => (states, Ret tt)
        end
    end.

(** [LoadSignState] *)
Definition LoadSignState (fs : gmap string node) (filepath : string)
  : SignState * option error :=
  let state := SignState_zero in
  match ReadFile fs filepath with
  | Err err => (state, Some err)
  | Ok stateJSONBytes =>
      match UnmarshalJSON stateJSONBytes state with
      | (state, Some err) => (state, Some err)
      | (state, None) => (with_filePath state filepath, None)
      end
  end.

(** [LoadOrCreateSignState] *)
Definition LoadOrCreateSignState
  (fs : gmap string node) (filepath : string) (env : io_env)
  : list (gmap string node) * outcome (SignState * option error) :=
  match LoadSignState fs filepath with
  | (existing, None) => ([fs], Ret (existing, None))
  | (_, Some _) =>
      let state := with_filePath SignState_zero filepath in
      let '(states, saved) := Save state fs env in
      (states, call _ <- saved; Ret (state, None))
  end.

(** The state file is missing, unreadable, or does not parse. *)
Definition load_fails (fs : gmap string node) (filepath : string) : Prop :=
  match ReadFile fs filepath with
  | Err _ => True
  | Ok stateJSONBytes => is_Some (UnmarshalJSON stateJSONBytes SignState_zero).2
  end.

(** "[LoadOrCreateSignState] returns a nil error", as a property of one
    call. *)
Definition returns_nil_error
  (fs : gmap string node) (filepath : string) (env : io_env) : Prop :=
  exists st, (LoadOrCreateSignState fs filepath env).2 = Ret (st, None).

End Persistence.

(** An environment without faults, and a disk holding a state file that
    does not parse. *)
Definition quiet_env : io_env := {| temp_suffix := "0001"; io_fault := None |}.

Definition corrupt_disk : gmap string node :=
  {[ "state.json" := File [xff%byte] perm_0600 ]}.

(** ** The cosigner key *)

(** [crypto.PubKey] is an interface; these are the key types the codec
    knows.  A nil interface value is [None]. *)
Inductive PubKey : Type :=
| PubKeyEd25519 (key : list byte)
| PubKeySecp256k1 (key : list byte).

#[global] Instance PubKey_eq_dec : EqDecision PubKey.
Proof. solve_decision. Defined.

Module rsa.
(** [rsa.PublicKey] *)
Record PublicKey : Type := mkPublicKey { N : Z; E : Z }.
(** [rsa.PrivateKey], without the values [Precompute] derives *)
Record PrivateKey : Type := mkPrivateKey {
  Public : PublicKey;
  D : Z;
  Primes : list Z
}.
Definition PrivateKey_zero : PrivateKey :=
  {| Public := {| N := 0; E := 0 |}; D := 0; Primes := [] |}.
End rsa.

(** [CosignerKey].  The slices are kept by content: the two methods only
    range over them and rebuild them; the peer keys are the values behind
    the pointers. *)
Record CosignerKey : Type := mkCosignerKey {
  PubKey_ : option PubKey;
  ShareKey : list byte;
  RSAKey : rsa.PrivateKey;
  ID : Z;
  CosignerKeys : list rsa.PublicKey
}.

(** [CosignerKey{}] *)
Definition CosignerKey_zero : CosignerKey :=
  {| PubKey_ := None; ShareKey := []; RSAKey := rsa.PrivateKey_zero;
     ID := 0; CosignerKeys := [] |}.

(** The JSON object both methods go through.  The auxiliary struct
    declares [rsa_key], [pub_key] and [rsa_pubs] as byte fields and embeds
    the key itself under an alias type; encoding/json lets the outer
    fields hide the embedded ones of the same name, so that of the
    embedded key only [secret_share] and [id] are visible. *)
Record KeyFile : Type := mkKeyFile {
  rsa_key : list byte;
  pub_key : list byte;
  rsa_pubs : list (list byte);
  secret_share : list byte;
  id : Z
}.

(** The library calls of the two methods: x509, the public key encodings
    of the two revisions (protobuf; amino), and encoding/json on the
    auxiliary struct. *)
Class KeyLibs : Type := {
  (** [x509.MarshalPKCS1PrivateKey], [x509.ParsePKCS1PrivateKey] *)
  MarshalPKCS1PrivateKey : rsa.PrivateKey -> list byte;
  ParsePKCS1PrivateKey : list byte -> result rsa.PrivateKey;
  (** [x509.MarshalPKCS1PublicKey], [x509.ParsePKCS1PublicKey] *)
  MarshalPKCS1PublicKey : rsa.PublicKey -> list byte;
  ParsePKCS1PublicKey : list byte -> result rsa.PublicKey;
  (** [tmProtoCrypto.PublicKey] with [tmCryptoEncoding.PubKeyToProto],
      [protoPubkey.Marshal], [protoPubkey.Unmarshal] and
      [tmCryptoEncoding.PubKeyFromProto] *)
  ProtoPublicKey : Type;
  PubKeyToProto : option PubKey -> result ProtoPublicKey;
  proto_Marshal : ProtoPublicKey -> result (list byte);
  proto_Unmarshal : list byte -> result ProtoPublicKey;
  PubKeyFromProto : ProtoPublicKey -> result (option PubKey);
  (** [cdc.MarshalBinaryBare(cosignerKey.PubKey)] *)
  MarshalBinaryBare : option PubKey -> result (list byte);
  (** [cdc.UnmarshalBinaryBare(bz, &pubkey)] with
      [pubkey tmed25519.PubKeyEd25519]: the key bytes *)
  UnmarshalBinaryBare_ed25519 : list byte -> result (list byte);
  (** [json.Marshal(&aux)] *)
  json_Marshal : KeyFile -> result (list byte);
  (** [json.Unmarshal(data, &aux)]: the struct after the call, and the
      error *)
  json_Unmarshal : list byte -> KeyFile -> KeyFile * option error
}.

Section CosignerKey_methods.

Context `{KeyLibs}.

(** The loop [for _, pubKey := range cosignerKey.CosignerKeys] of
    [MarshalJSON], appending to [rsaPubKeysBytes]. *)
Fixpoint marshal_pubs (pubKeys : list rsa.PublicKey)
  (rsaPubKeysBytes : list (list byte)) : list (list byte) :=
  match pubKeys with
  | [] => rsaPubKeysBytes
  | pubKey :: rest =>
      let publicBytes := MarshalPKCS1PublicKey pubKey in
      marshal_pubs rest (rsaPubKeysBytes ++ [publicBytes])
  end.

(** The loop [for _, bytes := range aux.CosignerKeys] of [UnmarshalJSON],
    appending to [cosignerKey.CosignerKeys]; it returns at the first key
    that does not parse. *)
Fixpoint parse_pubs (pubs : list (list byte)) (keys : list rsa.PublicKey)
  : list rsa.PublicKey * option error :=
  match pubs with
  | [] => (keys, None)
  | bytes :: rest =>
      match ParsePKCS1PublicKey bytes with
      | Err err => (keys, Some err)
      | Ok cosignerRsaPubkey => parse_pubs rest (keys ++ [cosignerRsaPubkey])
      end
  end.

(** [aux] before [json.Unmarshal]: the byte fields are nil, the embedded
    alias points at the receiver. *)
Definition aux_of (cosignerKey : CosignerKey) : KeyFile :=
  {| rsa_key := []; pub_key := []; rsa_pubs := [];
     secret_share := ShareKey cosignerKey; id := ID cosignerKey |}.

(** The receiver after [json.Unmarshal] wrote through the alias. *)
Definition through_alias (cosignerKey : CosignerKey) (aux : KeyFile)
  : CosignerKey :=
  {| PubKey_ := PubKey_ cosignerKey; ShareKey := secret_share aux;
     RSAKey := RSAKey cosignerKey; ID := id aux;
     CosignerKeys := CosignerKeys cosignerKey |}.

Definition with_CosignerKeys (cosignerKey : CosignerKey)
  (keys : list rsa.PublicKey) : CosignerKey :=
  {| PubKey_ := PubKey_ cosignerKey; ShareKey := ShareKey cosignerKey;
     RSAKey := RSAKey cosignerKey; ID := ID cosignerKey;
     CosignerKeys := keys |}.

Definition with_keys (cosignerKey : CosignerKey)
  (privateKey : rsa.PrivateKey) (pubkey : option PubKey) : CosignerKey :=
  {| PubKey_ := pubkey; ShareKey := ShareKey cosignerKey;
     RSAKey := privateKey; ID := ID cosignerKey;
     CosignerKeys := CosignerKeys cosignerKey |}.

End CosignerKey_methods.

(** The revision that carries the validator key protobuf-encoded. *)
Module KeyProto.
Section Methods.
Context `{KeyLibs}.

Definition MarshalJSON (cosignerKey : CosignerKey) : result (list byte) :=
  let privateBytes := MarshalPKCS1PrivateKey (RSAKey cosignerKey) in
  let rsaPubKeysBytes := marshal_pubs (CosignerKeys cosignerKey) [] in
  match PubKeyToProto (PubKey_ cosignerKey) with
  | Err err => Err err
  | Ok protoPubkey =>
      match proto_Marshal protoPubkey with
      | Err err => Err err
      | Ok protoBytes =>
          json_Marshal {| pub_key := protoBytes; rsa_key := privateBytes;
                          rsa_pubs := rsaPubKeysBytes;
                          secret_share := ShareKey cosignerKey;
                          id := ID cosignerKey |}
      end
  end.

(** The receiver after the call, and the error. *)
Definition UnmarshalJSON (data : list byte) (cosignerKey : CosignerKey)
  : CosignerKey * option error :=
  match json_Unmarshal data (aux_of cosignerKey) with
  | (aux, Some err) => (through_alias cosignerKey aux, Some err)
  | (aux, None) =>
      let cosignerKey := through_alias cosignerKey aux in
      match ParsePKCS1PrivateKey (rsa_key aux) with
      | Err err => (cosignerKey, Some err)
      | Ok privateKey =>
          match proto_Unmarshal (pub_key aux) with
          | Err err => (cosignerKey, Some err)
          | Ok protoPubkey =>
              match PubKeyFromProto protoPubkey with
              | Err err => (cosignerKey, Some err)
              | Ok pubkey =>
                  match parse_pubs (rsa_pubs aux) [] with
                  | (keys, Some err) =>
                      (with_CosignerKeys cosignerKey keys, Some err)
                  | (keys, None) =>
                      (with_keys (with_CosignerKeys cosignerKey keys)
                                 privateKey pubkey, None)
                  end
              end
          end
      end
  end.

End Methods.
End KeyProto.

(** The revision that carries the validator key amino-encoded and decodes
    it into an Ed25519 key. *)
Module KeyAmino.
Section Methods.
Context `{KeyLibs}.

Definition MarshalJSON (cosignerKey : CosignerKey) : result (list byte) :=
  let privateBytes := MarshalPKCS1PrivateKey (RSAKey cosignerKey) in
  let rsaPubKeysBytes := marshal_pubs (CosignerKeys cosignerKey) [] in
  match MarshalBinaryBare (PubKey_ cosignerKey) with
  | Err err => Err err
  | Ok pubkey =>
      json_Marshal {| pub_key := pubkey; rsa_key := privateBytes;
                      rsa_pubs := rsaPubKeysBytes;
                      secret_share := ShareKey cosignerKey;
                      id := ID cosignerKey |}
  end.

Definition UnmarshalJSON (data : list byte) (cosignerKey : CosignerKey)
  : CosignerKey * option error :=
  match json_Unmarshal data (aux_of cosignerKey) with
  | (aux, Some err) => (through_alias cosignerKey aux, Some err)
  | (aux, None) =>
      let cosignerKey := through_alias cosignerKey aux in
      match ParsePKCS1PrivateKey (rsa_key aux) with
      | Err err => (cosignerKey, Some err)
      | Ok privateKey =>
          match UnmarshalBinaryBare_ed25519 (pub_key aux) with
          | Err err => (cosignerKey, Some err)
          | Ok pubkey =>
              match parse_pubs (rsa_pubs aux) [] with
              | (keys, Some err) =>
                  (with_CosignerKeys cosignerKey keys, Some err)
              | (keys, None) =>
                  (with_keys (with_CosignerKeys cosignerKey keys)
                             privateKey (Some (PubKeyEd25519 pubkey)), None)
              end
          end
      end
  end.

End Methods.
End KeyAmino.

(** Round trip of one key through a pair of methods: the encoding
    succeeds, and decoding its bytes into [receiver] yields the key. *)
Definition round_trips
  (marshal : CosignerKey -> result (list byte))
  (unmarshal : list byte -> CosignerKey -> CosignerKey * option error)
  (receiver key : CosignerKey) : Prop :=
  exists data, marshal key = Ok data /\ unmarshal data receiver = (key, None).

(** ** Reference key libraries

    An instance of [KeyLibs]: PKCS#1 as a DER sequence of integers (short
    lengths only), the amino encoding of a public key as its four prefix
    bytes, a length byte and the key, the protobuf encoding as one
    length-delimited field per key type, and the JSON object in the field
    format of [RefCodec]. *)
Module RefKeyLibs.

Import RefCodec.

(** DER INTEGER of a natural number: big-endian, with a leading zero byte
    when the top bit would be set. *)
Definition der_int (z : Z) : list byte :=
  let n := Z.to_nat ((Z.log2 z + 1) / 8 + 1) in
  x02%byte :: byte_of_Z (Z.of_nat n) :: rev (le_encode n z).

Definition der_seq (body : list byte) : list byte :=
  x30%byte :: byte_of_Z (Z.of_nat (length body)) :: body.

Fixpoint der_ints (fuel : nat) (bs : list byte) : option (list Z) :=
  match bs, fuel with
  | [], _ => Some []
  | _ :: _, O => None
  | t :: l :: rest, S fuel' =>
      let n := Z.to_nat (Z_of_byte l) in
      if bool_decide (t = x02%byte) && (n <=? length rest)%nat
      then cons (le_decode (rev (take n rest))) <$> der_ints fuel' (drop n rest)
      else None
  | _, _ => None
  end.

Definition der_seq_ints (bs : list byte) : result (list Z) :=
  match bs with
  | t :: l :: body =>
      if bool_decide (t = x30%byte) && (Z_of_byte l =? Z.of_nat (length body))
      then match der_ints (length body) body with
           | Some zs => Ok zs
           | None => Err "asn1: syntax error"
           end
      else Err "asn1: structure error"
  | _ => Err "asn1: syntax error: truncated"
  end.

Definition marshal_private (k : rsa.PrivateKey) : list byte :=
  der_seq (concat (der_int <$>
    (0 :: rsa.N (rsa.Public k) :: rsa.E (rsa.Public k) :: rsa.D k ::
     rsa.Primes k))).

Definition parse_private (bs : list byte) : result rsa.PrivateKey :=
  match der_seq_ints bs with
  | Err e => Err e
  | Ok (0 :: n :: e :: d :: p :: q :: more) =>
      Ok {| rsa.Public := {| rsa.N := n; rsa.E := e |}; rsa.D := d;
            rsa.Primes := p :: q :: more |}
  | Ok _ => Err "x509: failed to parse private key"
  end.

Definition marshal_public (k : rsa.PublicKey) : list byte :=
  der_seq (der_int (rsa.N k) ++ der_int (rsa.E k)).

Definition parse_public (bs : list byte) : result rsa.PublicKey :=
  match der_seq_ints bs with
  | Err e => Err e
  | Ok [n; e] => Ok {| rsa.N := n; rsa.E := e |}
  | Ok _ => Err "x509: failed to parse public key"
  end.

(** The amino prefixes of the two registered key types. *)
Definition prefix_ed25519 : list byte := [x16; x24; xde; x64]%byte.
Definition prefix_secp256k1 : list byte := [xeb; x5a; xe9; x87]%byte.

Definition amino_marshal (k : option PubKey) : result (list byte) :=
  match k with
  | None => Err "cannot encode a nil interface"
  | Some (PubKeyEd25519 key) =>
      Ok (prefix_ed25519 ++ byte_of_Z (Z.of_nat (length key)) :: key)%list
  | Some (PubKeySecp256k1 key) =>
      Ok (prefix_secp256k1 ++ byte_of_Z (Z.of_nat (length key)) :: key)%list
  end.

Definition amino_unmarshal_ed25519 (bs : list byte) : result (list byte) :=
  if bool_decide (take 4 bs = prefix_ed25519) then
    match drop 4 bs with
    | l :: key =>
        if (Z_of_byte l =? 32) && (length key =? 32)%nat then Ok key
        else Err "wrong key length"
    | [] => Err "truncated key"
    end
  else Err "unrecognized prefix bytes".

Definition to_proto (k : option PubKey) : result (option PubKey) :=
  match k with
  | None => Err "toproto: key type <nil> is not supported"
  | Some _ => Ok k
  end.

Definition proto_marshal (k : option PubKey) : result (list byte) :=
  match k with
  | None => Ok []
  | Some (PubKeyEd25519 key) => Ok (field_bytes 1 key)
  | Some (PubKeySecp256k1 key) => Ok (field_bytes 2 key)
  end.

Definition proto_unmarshal (bs : list byte) : result (option PubKey) :=
  match fields (length bs) bs with
  | Some [] => Ok None
  | Some [(k, v)] =>
      if k =? key 1 2 then Ok (Some (PubKeyEd25519 v))
      else if k =? key 2 2 then Ok (Some (PubKeySecp256k1 v))
      else Err "proto: unknown field"
  | _ => Err "proto: malformed"
  end.

Definition from_proto (k : option PubKey) : result (option PubKey) :=
  match k with
  | None => Err "fromproto: key type <nil> is not supported"
  | Some (PubKeyEd25519 key) =>
      if (length key =? 32)%nat then Ok k
      else Err "invalid size for PubKeyEd25519"
  | Some (PubKeySecp256k1 key) => Ok k
  end.

Definition file_schema : list Z :=
  [key 1 2; key 2 2; key 3 2; key 4 2; key 5 1].

Definition encode_file (f : KeyFile) : list byte :=
  length_prefixed
    (field_bytes 1 (rsa_key f) ++
     field_bytes 2 (pub_key f) ++
     concat (field_bytes 3 <$> rsa_pubs f) ++
     field_bytes 4 (secret_share f) ++
     field_fixed64 5 (id f)).

Fixpoint values (k : Z) (fs : list (Z * list byte)) : list (list byte) :=
  match fs with
  | [] => []
  | (k', v) :: fs' => if k' =? k then v :: values k fs' else values k fs'
  end.

Definition decode_file (bs : list byte) (aux : KeyFile)
  : KeyFile * option error :=
  match message file_schema bs with
  | Err e => (aux, Some e)
  | Ok fs =>
      ({| rsa_key := get_bytes 1 fs; pub_key := get_bytes 2 fs;
          rsa_pubs := values (key 3 2) fs;
          secret_share := get_bytes 4 fs; id := get_fixed64 5 fs |}, None)
  end.

#[export] Instance libs : KeyLibs := {|
  MarshalPKCS1PrivateKey := marshal_private;
  ParsePKCS1PrivateKey := parse_private;
  MarshalPKCS1PublicKey := marshal_public;
  ParsePKCS1PublicKey := parse_public;
  ProtoPublicKey := option PubKey;
  PubKeyToProto := to_proto;
  proto_Marshal := proto_marshal;
  proto_Unmarshal := proto_unmarshal;
  PubKeyFromProto := from_proto;
  MarshalBinaryBare := amino_marshal;
  UnmarshalBinaryBare_ed25519 := amino_unmarshal_ed25519;
  json_Marshal f := Ok (encode_file f);
  json_Unmarshal := decode_file
|}.

End RefKeyLibs.

(** Two cosigner keys on small RSA numbers, the same but for the type of
    the validator key. *)
Definition ed25519_key : CosignerKey :=
  {| PubKey_ := Some (PubKeyEd25519 (replicate 32 x07%byte));
     ShareKey := [x01; x02; x03]%byte;
     RSAKey := {| rsa.Public := {| rsa.N := 3233; rsa.E := 17 |};
                  rsa.D := 2753; rsa.Primes := [61; 53] |};
     ID := 1;
     CosignerKeys := [ {| rsa.N := 3233; rsa.E := 17 |};
                       {| rsa.N := 3127; rsa.E := 3 |};
                       {| rsa.N := 2773; rsa.E := 17 |} ] |}.

Definition secp256k1_key : CosignerKey :=
  {| PubKey_ := Some (PubKeySecp256k1 (replicate 33 x02%byte));
     ShareKey := ShareKey ed25519_key; RSAKey := RSAKey ed25519_key;
     ID := ID ed25519_key; CosignerKeys := CosignerKeys ed25519_key |}.

(** The JSON object of a key whose validator key encodes to [pubkey]: the
    RSA keys in PKCS#1 form, the peer keys in the order of the list. *)
Definition key_file `{KeyLibs} (key : CosignerKey) (pubkey : list byte)
  : KeyFile :=
  {| rsa_key := MarshalPKCS1PrivateKey (RSAKey key);
     pub_key := pubkey;
     rsa_pubs := MarshalPKCS1PublicKey <$> CosignerKeys key;
     secret_share := ShareKey key;
     id := ID key |}.

(** ** The reconnecting remote signer *)

(** [types.PrivValidator]: the interface the service signs through.  Votes
    and proposals are opaque to the service; [SignVote] and [SignProposal]
    write the signature into the object behind the pointer and may change
    the validator, so they return the object and the validator after the
    call along with the error. *)
Class PrivValidator : Type := {
  Vote : Type;
  Proposal : Type;
  validator : Type;
  GetPubKey : validator -> option PubKey * option error;
  SignVote : string -> Vote -> validator -> Vote * validator * option error;
  SignProposal :
    string -> Proposal -> validator -> Proposal * validator * option error
}.

(** [privval.RemoteSignerError] *)
Record RemoteSignerError : Type := mkRemoteSignerError {
  Code : Z;
  Description : string
}.

Section RemoteSigner.

Context `{PrivValidator}.

(** [privval.SignerMessage]: the requests and the responses. *)
Inductive SignerMessage : Type :=
| PubKeyRequest
| PubKeyResponse (pubKey : option PubKey) (err : option RemoteSignerError)
| SignVoteRequest (vote : Vote)
| SignedVoteResponse (vote : option Vote) (err : option RemoteSignerError)
| SignProposalRequest (proposal : Proposal)
| SignedProposalResponse (proposal : option Proposal)
    (err : option RemoteSignerError)
| PingRequest
| PingResponse.

(** The [Error] field of a response. *)
Definition response_error (msg : SignerMessage) : option RemoteSignerError :=
  match msg with
  | PubKeyResponse _ err => err
  | SignedVoteResponse _ err => err
  | SignedProposalResponse _ err => err
  | _ => None
  end.

(** [handleRequest]: the response (nil for an unknown message), the error
    and the validator after the call.  In the [PubKeyRequest] case the
    source declares a new [err], so the error returned there is nil. *)
Definition handleRequest (chainID : string) (req : SignerMessage)
  (privVal : validator) : option SignerMessage * option error * validator :=
  match req with
  | PubKeyRequest =>
      match GetPubKey privVal with
      | (_, Some err) =>
          (Some (PubKeyResponse None
                   (Some {| Code := 0; Description := err |})),
           None, privVal)
      | (pubKey, None) => (Some (PubKeyResponse pubKey None), None, privVal)
      end
  | SignVoteRequest vote =>
      match SignVote chainID vote privVal with
      | (_, privVal', Some err) =>
          (Some (SignedVoteResponse None
                   (Some {| Code := 0; Description := err |})),
           Some err, privVal')
      | (vote', privVal', None) =>
          (Some (SignedVoteResponse (Some vote') None), None, privVal')
      end
  | SignProposalRequest proposal =>
      match SignProposal chainID proposal privVal with
      | (_, privVal', Some err) =>
          (Some (SignedProposalResponse None
                   (Some {| Code := 0; Description := err |})),
           Some err, privVal')
      | (proposal', privVal', None) =>
          (Some (SignedProposalResponse (Some proposal') None), None, privVal')
      end
  | PingRequest => (Some PingResponse, None, privVal)
  | _ => (None, Some "unknown msg", privVal)
  end.

(** One attempt of the dialling loop: the dial fails, the handshake of the
    secret connection fails, or a connection (named by a number) is
    there. *)
Inductive dial_outcome : Type :=
| DialError (err : error)
| HandshakeError (err : error)
| Connected (conn : Z).

(** [for conn == nil { ... }]: the loop retries, three seconds apart, until
    an attempt connects; [None] when the attempts listed all fail. *)
Fixpoint dial (attempts : list dial_outcome) : option Z :=
  match attempts with
  | [] => None
  | Connected conn :: _ => Some conn
  | _ :: rest => dial rest
  end.

(** What the environment answers during one iteration of the service
    loop. *)
Record iteration_env : Type := mkIterationEnv {
  running_at_top : bool;
  dial_attempts : list dial_outcome;
  running_after_dial : bool;
  read_msg : result SignerMessage;
  write_msg : option error
}.

(** How an iteration ends: the loop goes round again, the goroutine
    returns, or it is still dialling. *)
Inductive control : Type :=
| Continue
| Return
| Dialling.

Record iteration_result : Type := mkIterationResult {
  conn_after : option Z;
  closed : list Z;
  sent : option (option SignerMessage);
  privVal_after : validator;
  next : control
}.

(** One iteration of the [for] loop of [loop], from the connection and
    the validator it starts with. *)
Definition iteration (chainID : string) (conn : option Z) (privVal : validator)
  (env : iteration_env) : iteration_result :=
  if negb (running_at_top env) then
    {| conn_after := conn;
       closed := match conn with Some c => [c] | None => [] end;
       sent := None; privVal_after := privVal; next := Return |}
  else
    match (match conn with
           | Some c => Some c
           | None => dial (dial_attempts env)
           end) with
    | None =>
        {| conn_after := None; closed := []; sent := None;
           privVal_after := privVal; next := Dialling |}
    | Some c =>
        if negb (running_after_dial env) then
          {| conn_after := Some c; closed := [c]; sent := None;
             privVal_after := privVal; next := Return |}
        else
          match read_msg env with
          | Err _ =>
              {| conn_after := None; closed := [c]; sent := None;
                 privVal_after := privVal; next := Continue |}
          | Ok req =>
              let '(res, _, privVal') := handleRequest chainID req privVal in
              match write_msg env with
              | Some _ =>
                  {| conn_after := None; closed := [c]; sent := Some res;
                     privVal_after := privVal'; next := Continue |}
              | None =>
                  {| conn_after := Some c; closed := []; sent := Some res;
                     privVal_after := privVal'; next := Continue |}
              end
          end
    end.

(** The service loop over the answers of successive iterations: the
    results of the iterations run, in order. *)
Fixpoint loop (chainID : string) (conn : option Z) (privVal : validator)
  (envs : list iteration_env) : list iteration_result :=
  match envs with
  | [] => []
  | env :: rest =>
      let r := iteration chainID conn privVal env in
      match next r with
      | Continue => r :: loop chainID (conn_after r) (privVal_after r) rest
      | _ => [r]
      end
  end.

(** The iteration dropped its connection to dial again. *)
Definition redials (r : iteration_result) : Prop :=
  closed r <> [] /\ conn_after r = None /\ next r = Continue.

(** A transport failure: reading or writing a framed message failed. *)
Definition transport_failure (env : iteration_env) : Prop :=
  is_Err (read_msg env) \/ is_Some (write_msg env).

End RemoteSigner.

(** A validator that keeps the watermark only: it refuses what [CheckHRS]
    refuses and advances otherwise.  Votes and proposals are (height,
    round, step) and (height, round). *)
Module RefValidator.

Definition sign (h r s : Z) (st : SignState) : SignState * option error :=
  match CheckHRS st h r s with
  | Ret (_, Some err) => (st, Some err)
  | Ret (true, None) => (st, None)
  | Ret (false, None) =>
      ({| Height := h; Round := r; Step := s;
          EphemeralPublic := EphemeralPublic st;
          Signature := Some [x2a%byte]; SignBytes := Some [x01%byte];
          filePath := filePath st |}, None)
  | Panic msg => (st, Some msg)
  end.

#[export] Instance pv : PrivValidator := {|
  Vote := Z * Z * Z;
  Proposal := Z * Z;
  validator := SignState;
  GetPubKey _ := (Some (PubKeyEd25519 (replicate 32 x07%byte)), None);
  SignVote _ vote st :=
    let '(h, r, s) := vote in
    let '(st', err) := sign h r s st in (vote, st', err);
  SignProposal _ proposal st :=
    let '(h, r) := proposal in
    let '(st', err) := sign h r stepPropose st in (proposal, st', err)
|}.

End RefValidator.

(** A prevote below the watermark of [signed_state]. *)
Definition stale_vote : @Vote RefValidator.pv := (0, 0, stepPrevote).

(** An iteration in which the frames pass. *)
Definition quiet_iteration `{PrivValidator} (req : SignerMessage)
  : iteration_env :=
  {| running_at_top := true; dial_attempts := []; running_after_dial := true;
     read_msg := Ok req; write_msg := None |}.

(** ** Start-up *)

(** Modelled from the spec: the configuration struct and its loader
    [signer.LoadConfigFromFile], which are not part of the sources.  The
    fields are the recognized options of the specification, under the
    names [main] reads them by. *)
Module CosignerConfig.
Record t : Type := mk { ID : Z; Address : string }.
End CosignerConfig.

Module NodeConfig.
Record t : Type := mk { Address : string }.
End NodeConfig.

Module Config.
Record t : Type := mk {
  Mode : string;
  PrivValKeyFile : string;
  PrivValStateDir : string;
  ChainID : string;
  CosignerThreshold : Z;
  ListenAddress : string;
  Nodes : list NodeConfig.t;
  Cosigners : list CosignerConfig.t
}.
End Config.

(** [LoadCosignerKey], over the [UnmarshalJSON] of either revision. *)
Definition LoadCosignerKey
  (UnmarshalJSON : list byte -> CosignerKey -> CosignerKey * option error)
  (fs : gmap string node) (file : string) : CosignerKey * option error :=
  let pvKey := CosignerKey_zero in
  match ReadFile fs file with
  | Err err => (pvKey, Some err)
  | Ok keyJSONBytes =>
      match UnmarshalJSON keyJSONBytes pvKey with
      | (pvKey, Some err) => (pvKey, Some err)
      | (pvKey, None) => (pvKey, None)
      end
  end.

(** [path.Join] of a directory and a file name (no cleaning of the
    path). *)
Definition path_Join (dir name : string) : string :=
  if bool_decide (dir = "") then name else dir +:+ "/" +:+ name.

(** [fileExists] *)
Definition fileExists (fs : gmap string node) (filename : string) : bool :=
  match fs !! filename with
  | None => false
  | Some Dir => false
  | Some (File _ _) => true
  end.

(** The services [main] starts. *)
Inductive service : Type :=
| CosignerRpcServer (listenAddress : string)
| ReconnRemoteSigner (address : string).

(** How start-up ends: [log.Fatal] exits with status 1, a panic ends the
    process, or [main] waits for a signal with its services running. *)
Inductive exit : Type :=
| Fatal (msg : string)
| Panicked (msg : string)
| Serving.

Definition terminated (e : exit) : Prop :=
  match e with
  | Serving => False
  | _ => True
  end.

Record started : Type := mkStarted {
  services : list service;
  status : exit;
  disk_after : gmap string node
}.

(** What the environment of [main] decides. *)
Record main_env : Type := mkMainEnv {
  (** the [--config] flag *)
  configFile : string;
  LoadConfigFromFile : string -> result Config.t;
  disk : gmap string node;
  io : io_env;
  (** [privval.LoadFilePV] and [privval.LoadFilePVEmptyState] exit the
      process when the key or the state cannot be used *)
  LoadFilePV_exit : option string;
  (** what [Start] returns for the signer of the i-th node *)
  Start_errors : list (option error)
}.

Section Main.

Context `{Codec} `{KeyLibs}.

Variable UnmarshalKey : list byte -> CosignerKey -> CosignerKey * option error.

(** The loop over [config.Cosigners]: the peers collected after
    ourselves, or the message of [log.Fatalf] at the first identifier out
    of range. *)
Fixpoint cosigner_peers (key : CosignerKey)
  (cosigners : list CosignerConfig.t) (peers : list (Z * rsa.PublicKey))
  : outcome (list (Z * rsa.PublicKey)) + string :=
  match cosigners with
  | [] => inl (Ret peers)
  | cosignerConfig :: rest =>
      let id := CosignerConfig.ID cosignerConfig in
      if (id <? 1) || (id >? Z.of_nat (length (CosignerKeys key))) then
        inr ("Unexpected cosigner ID " +:+ fmt_v id)
      else
        match CosignerKeys key !! Z.to_nat (id - 1) with
        | None => inl (Panic "index out of range")
        | Some pubKey => cosigner_peers key rest (peers ++ [(id, pubKey)])
        end
  end.

(** The loop over [config.Nodes]: each signer is started in turn; a
    failing [Start] panics with the services started so far running. *)
Fixpoint start_signers (nodes : list NodeConfig.t)
  (errors : list (option error)) (services : list service)
  : list service * exit :=
  match nodes with
  | [] => (services, Serving)
  | node :: rest =>
      match errors with
      | Some err :: _ => (services, Panicked err)
      | _ =>
          start_signers rest (tail errors)
            (services ++ [ReconnRemoteSigner (NodeConfig.Address node)])
      end
  end.

(** The [mpc] branch up to the start of the RPC server. *)
Definition start_mpc (env : main_env) (config : Config.t) : started :=
  let chainID := Config.ChainID config in
  if Config.CosignerThreshold config =? 0 then
    {| services := [];
       status := Fatal "The `cosigner_threshold` option is required in `threshold` mode";
       disk_after := disk env |}
  else if bool_decide (Config.ListenAddress config = "") then
    {| services := [];
       status := Fatal "The cosigner_listen_address option is required in `threshold` mode";
       disk_after := disk env |}
  else
    match LoadCosignerKey UnmarshalKey (disk env) (Config.PrivValKeyFile config) with
    | (_, Some err) =>
        {| services := []; status := Panicked err; disk_after := disk env |}
    | (key, None) =>
        let stateFile :=
          path_Join (Config.PrivValStateDir config)
                    (chainID +:+ "_priv_validator_state.json") in
        let '(disks, loaded) :=
          LoadOrCreateSignState (disk env) stateFile (io env) in
        let disk' := default (disk env) (last disks) in
        match loaded with
        | Panic msg =>
            {| services := []; status := Panicked msg; disk_after := disk' |}
        | Ret (_, Some err) =>
            {| services := []; status := Panicked err; disk_after := disk' |}
        | Ret (signState, None) =>
            let shareStateFile :=
              path_Join (Config.PrivValStateDir config)
                        (chainID +:+ "_share_sign_state.json") in
            match LoadSignState disk' shareStateFile with
            | (_, Some err) =>
                {| services := []; status := Panicked err;
                   disk_after := disk' |}
            | (shareSignState, None) =>
                match cosigner_peers key (Config.Cosigners config)
                        [(ID key, rsa.Public (RSAKey key))] with
                | inr msg =>
                    {| services := []; status := Fatal msg;
                       disk_after := disk' |}
                | inl (Panic msg) =>
                    {| services := []; status := Panicked msg;
                       disk_after := disk' |}
                | inl (Ret peers) =>
                    {| services :=
                         [CosignerRpcServer (Config.ListenAddress config)];
                       status := Serving; disk_after := disk' |}
                end
            end
        end
    end.

(** [main], from the parsed flag to [wg.Wait()]. *)
Definition main (env : main_env) : started :=
  if bool_decide (configFile env = "") then
    {| services := []; status := Panicked "--config flag is required";
       disk_after := disk env |}
  else
    match LoadConfigFromFile env (configFile env) with
    | Err err =>
        {| services := []; status := Fatal err; disk_after := disk env |}
    | Ok config =>
        let chainID := Config.ChainID config in
        if bool_decide (chainID = "") then
          {| services := []; status := Fatal "chain_id option is required";
             disk_after := disk env |}
        else
          let validator_up :=
            if bool_decide (Config.Mode config = "single") then
              match LoadFilePV_exit env with
              | Some msg =>
                  {| services := []; status := Fatal msg;
                     disk_after := disk env |}
              | None =>
                  {| services := []; status := Serving;
                     disk_after := disk env |}
              end
            else if bool_decide (Config.Mode config = "mpc") then
              start_mpc env config
            else
              {| services := [];
                 status := Fatal ("Unsupported mode: " +:+ Config.Mode config);
                 disk_after := disk env |} in
          match status validator_up with
          | Serving =>
              let '(services, status) :=
                start_signers (Config.Nodes config) (Start_errors env)
                              (services validator_up) in
              {| services := services; status := status;
                 disk_after := disk_after validator_up |}
          | _ => validator_up
          end
    end.

(** The configurations the specification calls invalid; the range of the
    cosigner identifiers is that of the peer keys of the cosigner key
    [main] loads in [mpc] mode. *)
Definition invalid_config (env : main_env) (config : Config.t) : Prop :=
  Config.ChainID config = ""
  \/ (Config.Mode config = "mpc" /\
      (Config.CosignerThreshold config = 0 \/ Config.ListenAddress config = ""))
  \/ (Config.Mode config <> "single" /\ Config.Mode config <> "mpc")
  \/ (Config.Mode config = "mpc" /\
      exists c, c ∈ Config.Cosigners config /\
        let n := Z.of_nat (length (CosignerKeys
                   (LoadCosignerKey UnmarshalKey (disk env)
                      (Config.PrivValKeyFile config)).1)) in
        (CosignerConfig.ID c < 1 \/ CosignerConfig.ID c > n)).

End Main.

(** A configuration for [mpc] mode that names a cosigner 5 where the key
    file of [ed25519_key] holds three peer keys, and the environment it is
    loaded in: the key file and the share state are on disk. *)
Definition five_cosigners_config : Config.t :=
  {| Config.Mode := "mpc";
     Config.PrivValKeyFile := "key.json";
     Config.PrivValStateDir := "state";
     Config.ChainID := "test-chain";
     Config.CosignerThreshold := 2;
     Config.ListenAddress := "tcp://0.0.0.0:1234";
     Config.Nodes := [ {| NodeConfig.Address := "tcp://node:1235" |} ];
     Config.Cosigners :=
       [ {| CosignerConfig.ID := 2; CosignerConfig.Address := "tcp://b:1234" |};
         {| CosignerConfig.ID := 5; CosignerConfig.Address := "tcp://e:1234" |} ] |}.

Definition key_json : list byte :=
  RefKeyLibs.encode_file
    {| rsa_key := RefKeyLibs.marshal_private (RSAKey ed25519_key);
       pub_key := RefCodec.field_bytes 1 (replicate 32 x07%byte);
       rsa_pubs := RefKeyLibs.marshal_public <$> CosignerKeys ed25519_key;
       secret_share := ShareKey ed25519_key;
       id := ID ed25519_key |}.

Definition startup_env (config : Config.t) : main_env :=
  {| configFile := "config.toml";
     LoadConfigFromFile := fun _ => Ok config;
     disk := {[ "key.json" := File key_json perm_0600;
                "state/test-chain_share_sign_state.json" :=
                  File (RefCodec.encode_state SignState_zero) perm_0600 ]};
     io := quiet_env;
     LoadFilePV_exit := None;
     Start_errors := [] |}.

(** ** Notions used by the further properties *)

(** Two proposals agree on every field but the timestamp. *)
Definition proposals_agree (p q : CanonicalProposal.t) : Prop :=
  CanonicalProposal.Type_ p = CanonicalProposal.Type_ q /\
  CanonicalProposal.Height p = CanonicalProposal.Height q /\
  CanonicalProposal.Round p = CanonicalProposal.Round q /\
  CanonicalProposal.POLRound p = CanonicalProposal.POLRound q /\
  CanonicalProposal.BlockID p = CanonicalProposal.BlockID q /\
  CanonicalProposal.ChainID p = CanonicalProposal.ChainID q.

(** The codec encodes the proposal and decodes the bytes back to it. *)
Definition reencodes `{Codec} (p : CanonicalProposal.t) : Prop :=
  exists bz, MarshalProposal p = Ok bz /\ UnmarshalProposal bz = Ok p.

(** A codec that decodes like the reference codec and fails to encode. *)
Definition failing_codec : Codec :=
  {| UnmarshalVote := RefCodec.decode_vote;
     UnmarshalProposal := RefCodec.decode_proposal;
     MarshalJSON_vote _ := Err "marshal failed";
     MarshalProposal _ := Err "marshal failed";
     MarshalJSONIndent _ := Err "marshal failed";
     UnmarshalJSON := RefCodec.decode_state |}.

(** A vote whose type is neither prevote nor precommit, and a state that
    has not signed yet. *)
Definition odd_vote : CanonicalVote.t :=
  {| CanonicalVote.Type_ := 7;
     CanonicalVote.Height := 3; CanonicalVote.Round := 4;
     CanonicalVote.BlockID := [xaa%byte];
     CanonicalVote.Timestamp := {| unix_sec := 1600000000; nsec := 0 |};
     CanonicalVote.ChainID := "test-chain" |}.

Definition unsigned_yet : SignState :=
  with_filePath SignState_zero "state.json".

(** The key file of [ed25519_key] as the amino revision writes it. *)
Definition key_json_amino : list byte :=
  RefKeyLibs.encode_file
    {| rsa_key := RefKeyLibs.marshal_private (RSAKey ed25519_key);
       pub_key := (RefKeyLibs.prefix_ed25519 ++
                   x20%byte :: replicate 32 x07%byte)%list;
       rsa_pubs := RefKeyLibs.marshal_public <$> CosignerKeys ed25519_key;
       secret_share := ShareKey ed25519_key;
       id := ID ed25519_key |}.

(** The cosigner identifier is within 1..N for the N peer keys of the
    key. *)
Definition in_range (key : CosignerKey) (c : CosignerConfig.t) : Prop :=
  1 <= CosignerConfig.ID c <= Z.of_nat (length (CosignerKeys key)).

(** The peer entry collected for a cosigner: its identifier with the peer
    key at position [ID - 1]. *)
Definition peer_of (key : CosignerKey) (c : CosignerConfig.t)
  (peer : Z * rsa.PublicKey) : Prop :=
  peer.1 = CosignerConfig.ID c /\
  CosignerKeys key !! Z.to_nat (CosignerConfig.ID c - 1) = Some peer.2.

(** The signers of the nodes, in configuration order. *)
Definition signers_of (nodes : list NodeConfig.t) : list service :=
  (fun node => ReconnRemoteSigner (NodeConfig.Address node)) <$> nodes.

(** The two state files of a configuration. *)
Definition stateFile_of (config : Config.t) : string :=
  path_Join (Config.PrivValStateDir config)
            (Config.ChainID config +:+ "_priv_validator_state.json").

Definition shareStateFile_of (config : Config.t) : string :=
  path_Join (Config.PrivValStateDir config)
            (Config.ChainID config +:+ "_share_sign_state.json").

(** A configuration for single mode with two nodes, and the mpc
    configuration above without its share state file on disk. *)
Definition single_config : Config.t :=
  {| Config.Mode := "single";
     Config.PrivValKeyFile := "priv_validator_key.json";
     Config.PrivValStateDir := "state";
     Config.ChainID := "test-chain";
     Config.CosignerThreshold := 0;
     Config.ListenAddress := "";
     Config.Nodes := [ {| NodeConfig.Address := "tcp://node-a:1235" |};
                       {| NodeConfig.Address := "tcp://node-b:1235" |} ];
     Config.Cosigners := [] |}.

Definition two_cosigners_config : Config.t :=
  {| Config.Mode := "mpc";
     Config.PrivValKeyFile := "key.json";
     Config.PrivValStateDir := "state";
     Config.ChainID := "test-chain";
     Config.CosignerThreshold := 2;
     Config.ListenAddress := "tcp://0.0.0.0:1234";
     Config.Nodes := [ {| NodeConfig.Address := "tcp://node:1235" |} ];
     Config.Cosigners :=
       [ {| CosignerConfig.ID := 2; CosignerConfig.Address := "tcp://b:1234" |};
         {| CosignerConfig.ID := 3; CosignerConfig.Address := "tcp://c:1234" |} ] |}.

Definition no_share_state_env (config : Config.t) : main_env :=
  {| configFile := "config.toml";
     LoadConfigFromFile := fun _ => Ok config;
     disk := {[ "key.json" := File key_json perm_0600 ]};
     io := quiet_env;
     LoadFilePV_exit := None;
     Start_errors := [] |}.

(** An iteration that starts without a connection: two attempts fail,
    the third connects, and the frames pass. *)
Definition reconnecting_iteration `{PrivValidator} (req : SignerMessage)
  : iteration_env :=
  {| running_at_top := true;
     dial_attempts := [DialError "connection refused";
                       HandshakeError "handshake failed"; Connected 9];
     running_after_dial := true;
     read_msg := Ok req; write_msg := None |}.

(** A prevote at (10, 0), the same prevote with a later timestamp, and the
    state that stored the first. *)
Definition prevote_V1 : CanonicalVote.t :=
  {| CanonicalVote.Type_ := PrevoteType;
     CanonicalVote.Height := 10; CanonicalVote.Round := 0;
     CanonicalVote.BlockID := [xaa%byte; xbb%byte];
     CanonicalVote.Timestamp := {| unix_sec := 1600000001; nsec := 0 |};
     CanonicalVote.ChainID := "test-chain" |}.

Definition prevote_V1_later : CanonicalVote.t :=
  {| CanonicalVote.Type_ := PrevoteType;
     CanonicalVote.Height := 10; CanonicalVote.Round := 0;
     CanonicalVote.BlockID := [xaa%byte; xbb%byte];
     CanonicalVote.Timestamp := {| unix_sec := 1600000009; nsec := 3 |};
     CanonicalVote.ChainID := "test-chain" |}.

Definition state_after_V1 : SignState :=
  {| Height := 10; Round := 0; Step := stepPrevote; EphemeralPublic := None;
     Signature := Some [x2b%byte];
     SignBytes := Some (RefCodec.encode_vote prevote_V1);
     filePath := "state.json" |}.

(* ================================================================== *)
(** * Properties *)
(* ================================================================== *)

(** ** The watermark check *)

Section CheckHRS_facts.

Implicit Types (S : SignState) (h r s : Z).

Lemma hrs_lt_irrefl (a : HRS) : ~ hrs_lt a a.
Proof. destruct a as [[h r] s]. unfold hrs_lt. lia. Qed.

Lemma hrs_lt_asym (a b : HRS) : hrs_lt a b -> ~ hrs_lt b a.
Proof.
  destruct a as [[h1 r1] s1], b as [[h2 r2] s2]. unfold hrs_lt. lia.
Qed.

Lemma hrs_trichotomy (a b : HRS) : hrs_lt a b \/ a = b \/ hrs_lt b a.
Proof.
  destruct a as [[h1 r1] s1], b as [[h2 r2] s2]. unfold hrs_lt.
  destruct (Z.lt_trichotomy h1 h2) as [?|[->|?]]; [lia| |lia].
  destruct (Z.lt_trichotomy r1 r2) as [?|[->|?]]; [lia| |lia].
  destruct (Z.lt_trichotomy s1 s2) as [?|[->|?]]; [lia| |lia].
  right; left; reflexivity.
Qed.

(** A request below the watermark is refused with an error. *)
Lemma CheckHRS_below S h r s :
  hrs_lt (h, r, s) (hrs_of S) -> Regression (CheckHRS S h r s).
Proof.
  unfold hrs_lt, hrs_of, CheckHRS, Regression. intros Hlt.
  destruct (Z.gtb_spec (Height S) h); [eauto|].
  destruct (Z.eqb_spec (Height S) h); [|lia].
  destruct (Z.gtb_spec (Round S) r); [eauto|].
  destruct (Z.eqb_spec (Round S) r); [|lia].
  destruct (Z.gtb_spec (Step S) s); [eauto|lia].
Qed.

(** A request above the watermark is fresh. *)
Lemma CheckHRS_above S h r s :
  hrs_lt (hrs_of S) (h, r, s) -> CheckHRS S h r s = Ret (false, None).
Proof.
  unfold hrs_lt, hrs_of, CheckHRS. intros Hlt.
  destruct (Z.gtb_spec (Height S) h); [lia|].
  destruct (Z.eqb_spec (Height S) h); [|reflexivity].
  destruct (Z.gtb_spec (Round S) r); [lia|].
  destruct (Z.eqb_spec (Round S) r); [|reflexivity].
  destruct (Z.gtb_spec (Step S) s); [lia|].
  destruct (Z.eqb_spec (Step S) s); [lia|reflexivity].
Qed.

(** At the watermark the two slices decide. *)
Lemma CheckHRS_at S :
  CheckHRS S (Height S) (Round S) (Step S) =
  match SignBytes S with
  | Some _ =>
      match Signature S with
      | None => Panic "pv: Signature is nil but SignBytes is not!"
      | Some _ => Ret (true, None)
      end
  | None => Ret (false, Some "no SignBytes found")
  end.
Proof.
  unfold CheckHRS.
  rewrite !Z.gtb_ltb, !Z.ltb_irrefl, !Z.eqb_refl. reflexivity.
Qed.

End CheckHRS_facts.


(** C1, as stated, fails: at the watermark of [unsigned_state] the sign
    bytes are non-empty, yet [CheckHRS] does not return [(true, nil)]; it
    panics, so the "exactly when" of the replay verdict is broken. *)
Lemma C1_table_fails_without_signature :
  ~ CheckHRS_table unsigned_state 1 0 stepPropose.
Proof.
  intros (_ & [_ Hreplay] & _).
  assert (Replay (CheckHRS unsigned_state 1 0 stepPropose)) as Habs.
  { apply Hreplay. split; [reflexivity|]. unfold non_empty. simpl. discriminate. }
  unfold Replay in Habs. vm_compute in Habs. discriminate.
Qed.

(** C1 (amended): for a stored state whose sign bytes are nil or
    non-empty, [CheckHRS] returns an error exactly when the request is
    below the watermark, or at it with empty sign bytes; it returns
    [(true, nil)] exactly when the request is at the watermark, the sign
    bytes are non-empty and a signature is stored; it panics exactly when
    the request is at the watermark, the sign bytes are non-empty and the
    signature is nil; it returns [(false, nil)] exactly when the request
    is above the watermark. *)
Theorem C1_CheckHRS_verdicts (S : SignState) (h r s : Z) :
  SignBytes S <> Some [] ->
  (Regression (CheckHRS S h r s) <->
     hrs_lt (h, r, s) (hrs_of S) \/ ((h, r, s) = hrs_of S /\ empty (SignBytes S)))
  /\ (Replay (CheckHRS S h r s) <->
        (h, r, s) = hrs_of S /\ non_empty (SignBytes S) /\ Signature S <> None)
  /\ (panics (CheckHRS S h r s) <->
        (h, r, s) = hrs_of S /\ non_empty (SignBytes S) /\ Signature S = None)
  /\ (FreshOK (CheckHRS S h r s) <-> hrs_lt (hrs_of S) (h, r, s)).
Proof.
  intros Hwf.
  destruct (hrs_trichotomy (h, r, s) (hrs_of S)) as [Hlt | [Heq | Hgt]].
  - (* below *)
    pose proof (CheckHRS_below S h r s Hlt) as (b & e & Hres).
    assert ((h, r, s) <> hrs_of S) as Hne
      by (intros E; rewrite E in Hlt; exact (hrs_lt_irrefl _ Hlt)).
    pose proof (hrs_lt_asym _ _ Hlt) as Hngt.
    unfold Regression, Replay, FreshOK, panics. rewrite Hres.
    split; [split; eauto|].
    split; [split; [congruence|tauto]|].
    split; [split; tauto|].
    split; [congruence|tauto].
  - (* at the watermark *)
    assert (~ hrs_lt (h, r, s) (hrs_of S)) as Hirr
      by (rewrite Heq; apply hrs_lt_irrefl).
    assert (~ hrs_lt (hrs_of S) (h, r, s)) as Hirr'
      by (rewrite Heq; apply hrs_lt_irrefl).
    assert (CheckHRS S h r s = CheckHRS S (Height S) (Round S) (Step S)) as ->
      by (unfold hrs_of in Heq; congruence).
    unfold Regression, Replay, FreshOK, panics, empty, non_empty, elems.
    rewrite CheckHRS_at.
    destruct (SignBytes S) as [[|b bs]|]; [congruence| |];
      destruct (Signature S) as [sg|]; cbv beta iota.
    + split; [split; [intros (? & ? & ?); congruence|intros [?|[_ ?]]; [tauto|congruence]]|].
      split; [split; [intros _; repeat split; congruence|reflexivity]|].
      split; [split; [tauto|intros (_ & _ & ?); congruence]|].
      split; [congruence|tauto].
    + split; [split; [intros (? & ? & ?); congruence|intros [?|[_ ?]]; [tauto|congruence]]|].
      split; [split; [congruence|intros (_ & _ & ?); congruence]|].
      split; [split; [intros _; repeat split; congruence|tauto]|].
      split; [congruence|tauto].
    + split; [split; [intros _; right; tauto|eauto]|].
      split; [split; [congruence|intros (_ & ? & _); congruence]|].
      split; [split; [tauto|intros (_ & ? & _); congruence]|].
      split; [congruence|tauto].
    + split; [split; [intros _; right; tauto|eauto]|].
      split; [split; [congruence|intros (_ & ? & _); congruence]|].
      split; [split; [tauto|intros (_ & ? & _); congruence]|].
      split; [congruence|tauto].
  - (* above *)
    pose proof (CheckHRS_above S h r s Hgt) as Hres.
    assert ((h, r, s) <> hrs_of S) as Hne
      by (intros E; rewrite E in Hgt; exact (hrs_lt_irrefl _ Hgt)).
    pose proof (hrs_lt_asym _ _ Hgt) as Hnlt.
    unfold Regression, Replay, FreshOK, panics. rewrite Hres.
    split; [split; [intros (? & ? & ?); congruence|tauto]|].
    split; [split; [congruence|tauto]|].
    split; [split; tauto|].
    split; [tauto|reflexivity].
Qed.


Lemma C1_CheckHRS_verdicts_witness :
  SignBytes signed_state <> Some [] /\
  Replay (CheckHRS signed_state 1 0 stepPropose).
Proof.
  assert (SignBytes signed_state <> Some []) as H by discriminate.
  split; [exact H|].
  apply (C1_CheckHRS_verdicts signed_state 1 0 stepPropose H).
  repeat split; discriminate.
Defined.

(** C3: at the stored watermark, with non-empty sign bytes and a nil
    signature, [CheckHRS] panics: it returns neither a value nor an
    error. *)
Theorem C3_CheckHRS_panics_without_signature (S : SignState) (h r s : Z) :
  (h, r, s) = hrs_of S ->
  non_empty (SignBytes S) ->
  Signature S = None ->
  CheckHRS S h r s = Panic "pv: Signature is nil but SignBytes is not!"
  /\ ~ returns (CheckHRS S h r s).
Proof.
  intros Heq Hne Hsig.
  assert (CheckHRS S h r s = Panic "pv: Signature is nil but SignBytes is not!")
    as Hp.
  { assert (CheckHRS S h r s = CheckHRS S (Height S) (Round S) (Step S)) as ->
      by (unfold hrs_of in Heq; congruence).
    rewrite CheckHRS_at, Hsig.
    unfold non_empty, elems in Hne.
    destruct (SignBytes S); [reflexivity|congruence]. }
  split; [exact Hp|]. rewrite Hp. simpl. tauto.
Qed.

Lemma C3_CheckHRS_panics_without_signature_witness :
  CheckHRS unsigned_state 1 0 stepPropose =
  Panic "pv: Signature is nil but SignBytes is not!".
Proof.
  apply (C3_CheckHRS_panics_without_signature unsigned_state 1 0 stepPropose).
  - reflexivity.
  - discriminate.
  - reflexivity.
Defined.

Example ref_proposal_roundtrip :
  RefCodec.decode_proposal (RefCodec.encode_proposal proposal_P1) = Ok proposal_P1.
Proof. vm_compute. reflexivity. Qed.

Example ref_vote_roundtrip :
  RefCodec.decode_vote (RefCodec.encode_vote bare_prevote) = Ok bare_prevote.
Proof. vm_compute. reflexivity. Qed.

Example ref_bare_vote_is_proposal :
  is_Ok (RefCodec.decode_proposal (RefCodec.encode_vote bare_prevote)).
Proof. vm_compute. exact I. Qed.

Example ref_proposal_is_no_vote :
  is_Err (RefCodec.decode_vote (RefCodec.encode_proposal proposal_P1)).
Proof. vm_compute. exact I. Qed.

(** ** The timestamp-only comparison *)

(** Concrete payloads are run on the reference codec. *)
#[local] Existing Instance RefCodec.codec.

Section Inspector_facts.

Context `{Codec}.

Lemma bytes_Equal_true (a b : list byte) : bytes_Equal a b = true <-> a = b.
Proof. unfold bytes_Equal. apply bool_decide_eq_true. Qed.

Lemma checkVote_decoded (last new : bytes) (now : Time) lastVote newVote :
  UnmarshalVote (elems last) = Ok lastVote ->
  UnmarshalVote (elems new) = Ok newVote ->
  checkVoteOnlyDifferByTimestamp last new now =
  Ret (CanonicalVote.Timestamp lastVote,
       bytes_Equal (reencoded_vote now newVote) (reencoded_vote now lastVote)).
Proof.
  intros Hl Hn. unfold checkVoteOnlyDifferByTimestamp. rewrite Hl, Hn.
  reflexivity.
Qed.

Lemma checkProposal_decoded (last new : bytes) (now : Time) lastP newP :
  UnmarshalProposal (elems last) = Ok lastP ->
  UnmarshalProposal (elems new) = Ok newP ->
  checkProposalOnlyDifferByTimestamp last new now =
  Ret (CanonicalProposal.Timestamp lastP,
       bytes_Equal (reencoded_proposal now newP) (reencoded_proposal now lastP)).
Proof.
  intros Hl Hn. unfold checkProposalOnlyDifferByTimestamp. rewrite Hl, Hn.
  reflexivity.
Qed.

Lemma checkVote_undecodable (last new : bytes) (now : Time) :
  is_Err (UnmarshalVote (elems last)) \/ is_Err (UnmarshalVote (elems new)) ->
  panics (checkVoteOnlyDifferByTimestamp last new now).
Proof.
  unfold checkVoteOnlyDifferByTimestamp.
  destruct (UnmarshalVote (elems last)); [|intros _; exact I].
  destruct (UnmarshalVote (elems new)); [|intros _; exact I].
  simpl. tauto.
Qed.

Lemma checkProposal_undecodable (last new : bytes) (now : Time) :
  is_Err (UnmarshalProposal (elems last)) \/
  is_Err (UnmarshalProposal (elems new)) ->
  panics (checkProposalOnlyDifferByTimestamp last new now).
Proof.
  unfold checkProposalOnlyDifferByTimestamp.
  destruct (UnmarshalProposal (elems last)); [|intros _; exact I].
  destruct (UnmarshalProposal (elems new)); [|intros _; exact I].
  simpl. tauto.
Qed.

Lemma OnlyDifferByTimestamp_propose (S : SignState) new now :
  Step S = stepPropose ->
  OnlyDifferByTimestamp S new now =
  checkProposalOnlyDifferByTimestamp (SignBytes S) new now.
Proof. intros Hs. unfold OnlyDifferByTimestamp. rewrite Hs. reflexivity. Qed.

Lemma OnlyDifferByTimestamp_vote (S : SignState) new now :
  Step S = stepPrevote \/ Step S = stepPrecommit ->
  OnlyDifferByTimestamp S new now =
  checkVoteOnlyDifferByTimestamp (SignBytes S) new now.
Proof.
  intros [Hs | Hs]; unfold OnlyDifferByTimestamp; rewrite Hs; reflexivity.
Qed.

End Inspector_facts.

(** C2: when the stored step is propose, stored and candidate bytes are
    decoded as canonical proposals, when it is prevote or precommit, as
    canonical votes.  Both decoded payloads get the same placeholder
    timestamp (every other field is kept) and are encoded again, the
    proposals in length-prefixed binary form, the votes as JSON, the bytes
    being nil where encoding fails.  The boolean returned is true exactly
    when the two re-encoded forms are byte-equal, and the time returned is
    the stored payload's original timestamp whatever the boolean. *)
Theorem C2_OnlyDifferByTimestamp_compares_reencoded
  `{Codec} (S : SignState) (new : bytes) (now : Time) :
  (Step S = stepPropose ->
   forall lastP newP,
     UnmarshalProposal (elems (SignBytes S)) = Ok lastP ->
     UnmarshalProposal (elems new) = Ok newP ->
     let placeholder (p : CanonicalProposal.t) :=
       {| CanonicalProposal.Type_ := CanonicalProposal.Type_ p;
          CanonicalProposal.Height := CanonicalProposal.Height p;
          CanonicalProposal.Round := CanonicalProposal.Round p;
          CanonicalProposal.POLRound := CanonicalProposal.POLRound p;
          CanonicalProposal.BlockID := CanonicalProposal.BlockID p;
          CanonicalProposal.Timestamp := now;
          CanonicalProposal.ChainID := CanonicalProposal.ChainID p |} in
     let reencoded (p : CanonicalProposal.t) :=
       match MarshalProposal (placeholder p) with
       | Ok bz => bz
       | Err _ => []
       end in
     exists same,
       OnlyDifferByTimestamp S new now =
         Ret (CanonicalProposal.Timestamp lastP, same)
       /\ (same = true <-> reencoded newP = reencoded lastP))
  /\ (Step S = stepPrevote \/ Step S = stepPrecommit ->
      forall lastV newV,
        UnmarshalVote (elems (SignBytes S)) = Ok lastV ->
        UnmarshalVote (elems new) = Ok newV ->
        let placeholder (v : CanonicalVote.t) :=
          {| CanonicalVote.Type_ := CanonicalVote.Type_ v;
             CanonicalVote.Height := CanonicalVote.Height v;
             CanonicalVote.Round := CanonicalVote.Round v;
             CanonicalVote.BlockID := CanonicalVote.BlockID v;
             CanonicalVote.Timestamp := now;
             CanonicalVote.ChainID := CanonicalVote.ChainID v |} in
        let reencoded (v : CanonicalVote.t) :=
          match MarshalJSON_vote (placeholder v) with
          | Ok bz => bz
          | Err _ => []
          end in
        exists same,
          OnlyDifferByTimestamp S new now =
            Ret (CanonicalVote.Timestamp lastV, same)
          /\ (same = true <-> reencoded newV = reencoded lastV)).
Proof.
  split.
  - intros Hs lastP newP Hl Hn placeholder reencoded.
    rewrite (OnlyDifferByTimestamp_propose S new now Hs).
    unfold checkProposalOnlyDifferByTimestamp. rewrite Hl, Hn.
    eexists; split; [reflexivity|].
    rewrite bytes_Equal_true.
    unfold reencoded, placeholder, drop_err, CanonicalProposal.set_Timestamp.
    reflexivity.
  - intros Hs lastV newV Hl Hn placeholder reencoded.
    rewrite (OnlyDifferByTimestamp_vote S new now Hs).
    unfold checkVoteOnlyDifferByTimestamp. rewrite Hl, Hn.
    eexists; split; [reflexivity|].
    rewrite bytes_Equal_true.
    unfold reencoded, placeholder, drop_err, CanonicalVote.set_Timestamp.
    reflexivity.
Qed.

Lemma C2_OnlyDifferByTimestamp_compares_reencoded_witness :
  OnlyDifferByTimestamp state_after_P1
    (Some (RefCodec.encode_proposal proposal_P1_later)) now0 =
  Ret ({| unix_sec := 1600000000; nsec := 5 |}, true)
  /\ OnlyDifferByTimestamp state_after_V1
       (Some (RefCodec.encode_vote prevote_V1_later)) now0 =
     Ret ({| unix_sec := 1600000001; nsec := 0 |}, true).
Proof.
  destruct (C2_OnlyDifferByTimestamp_compares_reencoded
              state_after_P1
              (Some (RefCodec.encode_proposal proposal_P1_later)) now0)
    as [Hpropose _].
  destruct (C2_OnlyDifferByTimestamp_compares_reencoded
              state_after_V1
              (Some (RefCodec.encode_vote prevote_V1_later)) now0)
    as [_ Hvote].
  split.
  - destruct (Hpropose eq_refl proposal_P1 proposal_P1_later)
      as (same & Hres & Hsame).
    + vm_compute. reflexivity.
    + vm_compute. reflexivity.
    + rewrite Hres. f_equal. f_equal. apply Hsame. vm_compute. reflexivity.
  - destruct (Hvote (or_introl eq_refl) prevote_V1 prevote_V1_later)
      as (same & Hres & Hsame).
    + vm_compute. reflexivity.
    + vm_compute. reflexivity.
    + rewrite Hres. f_equal. f_equal. apply Hsame. vm_compute. reflexivity.
Defined.

Example replay_with_later_timestamp :
  OnlyDifferByTimestamp state_after_P1
    (Some (RefCodec.encode_proposal proposal_P1_later)) now0 =
  Ret ({| unix_sec := 1600000000; nsec := 5 |}, true).
Proof. vm_compute. reflexivity. Qed.

Example other_block_is_no_replay :
  OnlyDifferByTimestamp state_after_P1
    (Some (RefCodec.encode_proposal proposal_P2)) now0 =
  Ret ({| unix_sec := 1600000000; nsec := 5 |}, false).
Proof. vm_compute. reflexivity. Qed.

Example prevote_with_later_timestamp :
  OnlyDifferByTimestamp state_after_V1
    (Some (RefCodec.encode_vote prevote_V1_later)) now0 =
  Ret ({| unix_sec := 1600000001; nsec := 0 |}, true).
Proof. vm_compute. reflexivity. Qed.

Example prevote_for_nothing_is_no_replay :
  OnlyDifferByTimestamp state_after_V1
    (Some (RefCodec.encode_vote
             {| CanonicalVote.Type_ := PrevoteType;
                CanonicalVote.Height := 10; CanonicalVote.Round := 0;
                CanonicalVote.BlockID := [];
                CanonicalVote.Timestamp := {| unix_sec := 1600000009; nsec := 3 |};
                CanonicalVote.ChainID := "test-chain" |})) now0 =
  Ret ({| unix_sec := 1600000001; nsec := 0 |}, false).
Proof. vm_compute. reflexivity. Qed.

(** C4: if the stored or the candidate sign bytes do not decode as the
    payload type the comparison expects, the comparison panics; it returns
    neither [false] nor an error.  This holds for the two comparison
    functions and for [OnlyDifferByTimestamp], which picks the expected
    type by the stored step. *)
Theorem C4_undecodable_payload_panics
  `{Codec} (S : SignState) (last new : bytes) (now : Time) :
  (is_Err (UnmarshalVote (elems last)) \/ is_Err (UnmarshalVote (elems new)) ->
   panics (checkVoteOnlyDifferByTimestamp last new now))
  /\ (is_Err (UnmarshalProposal (elems last)) \/
      is_Err (UnmarshalProposal (elems new)) ->
      panics (checkProposalOnlyDifferByTimestamp last new now))
  /\ (Step S = stepPropose ->
      is_Err (UnmarshalProposal (elems (SignBytes S))) \/
      is_Err (UnmarshalProposal (elems new)) ->
      panics (OnlyDifferByTimestamp S new now))
  /\ (Step S = stepPrevote \/ Step S = stepPrecommit ->
      is_Err (UnmarshalVote (elems (SignBytes S))) \/
      is_Err (UnmarshalVote (elems new)) ->
      panics (OnlyDifferByTimestamp S new now)).
Proof.
  split; [apply checkVote_undecodable|].
  split; [apply checkProposal_undecodable|].
  split.
  - intros Hs Hd. rewrite (OnlyDifferByTimestamp_propose S new now Hs).
    apply checkProposal_undecodable, Hd.
  - intros Hs Hd. rewrite (OnlyDifferByTimestamp_vote S new now Hs).
    apply checkVote_undecodable, Hd.
Qed.

Lemma C4_undecodable_payload_panics_witness :
  panics (OnlyDifferByTimestamp state_after_P1 (Some [xff%byte]) now0).
Proof.
  destruct (C4_undecodable_payload_panics
              state_after_P1 None (Some [xff%byte]) now0)
    as (_ & _ & Hpropose & _).
  apply Hpropose.
  - reflexivity.
  - right. vm_compute. exact I.
Defined.

(** ** Unpacking height, round and step *)

(** C5, as stated, fails: the bytes of a bare prevote at (3, 4) decode
    both as a vote and as a proposal, and [UnpackHRS] answers with the
    proposal reading, step propose, not with the vote's. *)
Lemma C5_vote_first_fails :
  ~ UnpackHRS_vote_first (Some (RefCodec.encode_vote bare_prevote)).
Proof.
  unfold UnpackHRS_vote_first. vm_compute. intros Habs. discriminate Habs.
Qed.

Example unpack_bare_prevote :
  UnpackHRS (Some (RefCodec.encode_vote bare_prevote)) =
  Ret (3, 4, stepPropose, None).
Proof. vm_compute. reflexivity. Qed.

(** C5 (amended): [UnpackHRS] tries the proposal decoding first and
    answers with the proposal's height and round and step propose when it
    succeeds; only when it fails is the vote decoding tried, whose height,
    round and step (by vote type) are then the answer; an error is
    returned exactly when both decodings fail. *)
Theorem C5_UnpackHRS_proposal_first `{Codec} (signBytes : bytes) :
  (forall proposal,
     UnmarshalProposal (elems signBytes) = Ok proposal ->
     UnpackHRS signBytes =
     Ret (CanonicalProposal.Height proposal, CanonicalProposal.Round proposal,
          stepPropose, None))
  /\ (forall vote,
        is_Err (UnmarshalProposal (elems signBytes)) ->
        UnmarshalVote (elems signBytes) = Ok vote ->
        UnpackHRS signBytes =
        (call step <- CanonicalVoteToStep vote;
         Ret (CanonicalVote.Height vote, CanonicalVote.Round vote, step, None)))
  /\ ((exists h r s e, UnpackHRS signBytes = Ret (h, r, s, Some e)) <->
      is_Err (UnmarshalProposal (elems signBytes)) /\
      is_Err (UnmarshalVote (elems signBytes))).
Proof.
  unfold UnpackHRS.
  destruct (UnmarshalProposal (elems signBytes)) as [p|ep].
  - split; [intros ? [= <-]; reflexivity|].
    split; [intros ? []|].
    split; [intros (? & ? & ? & ? & [=])|intros [[] _]].
  - split; [intros ? [=]|].
    destruct (UnmarshalVote (elems signBytes)) as [v|ev].
    + split; [intros ? _ [= <-]; reflexivity|].
      split; [|intros [_ []]].
      unfold CanonicalVoteToStep.
      destruct (_ =? _); [intros (? & ? & ? & ? & [=])|].
      destruct (_ =? _); intros (? & ? & ? & ? & [=]).
    + split; [intros ? _ [=]|].
      split; [intros _; split; exact I|intros _; eauto 10].
Qed.

Lemma C5_UnpackHRS_proposal_first_witness :
  UnpackHRS (Some (RefCodec.encode_proposal proposal_P1)) =
  Ret (10, 0, stepPropose, None).
Proof.
  destruct (C5_UnpackHRS_proposal_first
              (Some (RefCodec.encode_proposal proposal_P1))) as [Hfirst _].
  apply (Hfirst proposal_P1). vm_compute. reflexivity.
Defined.

(** ** Saving and loading the sign state *)

Section FileSystem_facts.

Implicit Types (fs : gmap string node) (filename : string) (env : io_env).

Lemma temp_name_fresh filename suffix : temp_name filename suffix <> filename.
Proof.
  unfold temp_name. induction filename as [|c f IH]; simpl.
  - discriminate.
  - intros [= E]. exact (IH E).
Qed.

Lemma write_succeeds_dec fs filename env :
  write_succeeds fs filename env \/ ~ write_succeeds fs filename env.
Proof.
  unfold write_succeeds.
  destruct (io_fault env); [right; intros [[=] _]|].
  destruct (fs !! temp_name filename (temp_suffix env));
    [right; intros [_ [=]]|left; tauto].
Qed.

(** Every state an atomic write passes through shows the target either
    untouched or with the whole new content. *)
Lemma WriteFileAtomic_atomic fs filename data perm env fs' :
  fs' ∈ (WriteFileAtomic fs filename data perm env).1 ->
  fs' !! filename = fs !! filename \/
  fs' !! filename = Some (File data perm).
Proof.
  pose proof (temp_name_fresh filename (temp_suffix env)) as Hne.
  unfold WriteFileAtomic.
  destruct (fs !! temp_name filename (temp_suffix env)) eqn:Htmp; simpl.
  { intros ->%list_elem_of_singleton. left; reflexivity. }
  destruct (io_fault env) as [[|n| |]|]; simpl;
    rewrite ?elem_of_cons, ?elem_of_nil;
    intros Hin; repeat destruct Hin as [->|Hin]; try contradiction;
    rewrite ?lookup_insert_eq, ?lookup_delete_ne, ?lookup_insert_ne by done;
    auto.
Qed.

Lemma WriteFileAtomic_success fs filename data perm env :
  write_succeeds fs filename env ->
  (WriteFileAtomic fs filename data perm env).2 = None /\
  exists final,
    last (WriteFileAtomic fs filename data perm env).1 = Some final /\
    final !! filename = Some (File data perm).
Proof.
  intros [Hfault Htmp]. unfold WriteFileAtomic. rewrite Htmp, Hfault. simpl.
  split; [reflexivity|]. eexists; split; [reflexivity|].
  apply lookup_insert_eq.
Qed.

Lemma WriteFileAtomic_failure fs filename data perm env :
  ~ write_succeeds fs filename env ->
  is_Some (WriteFileAtomic fs filename data perm env).2 /\
  exists final,
    last (WriteFileAtomic fs filename data perm env).1 = Some final /\
    final !! filename = fs !! filename.
Proof.
  pose proof (temp_name_fresh filename (temp_suffix env)) as Hne.
  intros Hno. unfold WriteFileAtomic, write_succeeds in *.
  destruct (fs !! temp_name filename (temp_suffix env)) eqn:Htmp; simpl.
  { split; [eauto|]. eexists; split; reflexivity. }
  destruct (io_fault env) as [[|n| |]|]; simpl; [..|tauto];
    (split; [eauto|]); eexists; (split; [reflexivity|]);
    rewrite ?lookup_delete_ne, ?lookup_insert_ne by done; reflexivity.
Qed.

End FileSystem_facts.

Section Persistence_facts.

Context `{Codec}.

Implicit Types (fs : gmap string node) (env : io_env).

Lemma Save_unset (S : SignState) fs env :
  filePath S = "" ->
  Save S fs env = ([fs], Panic "cannot save SignState: filePath not set").
Proof. intros E. unfold Save. rewrite E. reflexivity. Qed.

Lemma Save_marshalled (S : SignState) fs env jsonBytes :
  filePath S <> "" ->
  MarshalJSONIndent S = Ok jsonBytes ->
  Save S fs env =
  ((WriteFileAtomic fs (filePath S) jsonBytes perm_0600 env).1,
   match (WriteFileAtomic fs (filePath S) jsonBytes perm_0600 env).2 with
   | Some err => Panic err
   | None => Ret tt
   end).
Proof.
  intros Hp Hm. unfold Save. rewrite bool_decide_eq_false_2 by exact Hp.
  rewrite Hm.
  destruct (WriteFileAtomic _ _ _ _ _) as [states [err|]]; reflexivity.
Qed.

Lemma LoadSignState_error fs filepath :
  is_Some (LoadSignState fs filepath).2 <-> load_fails fs filepath.
Proof.
  unfold LoadSignState, load_fails.
  destruct (ReadFile fs filepath) as [bz|e]; simpl; [|split; eauto].
  destruct (UnmarshalJSON bz SignState_zero) as [st [e|]]; simpl.
  - split; eauto.
  - split; intros [? [=]].
Qed.

End Persistence_facts.

(** What [Save] does to the disk, case by case. *)
Lemma Save_cases
  `{Codec} (S : SignState) (fs : gmap string node) (env : io_env) :
  (filePath S = "" ->
   Save S fs env = ([fs], Panic "cannot save SignState: filePath not set"))
  /\ (filePath S <> "" ->
      (forall err, MarshalJSONIndent S = Err err ->
                   Save S fs env = ([fs], Panic err))
      /\ (forall jsonBytes,
            MarshalJSONIndent S = Ok jsonBytes ->
            (forall fs', fs' ∈ (Save S fs env).1 ->
               fs' !! filePath S = fs !! filePath S \/
               fs' !! filePath S = Some (File jsonBytes perm_0600))
            /\ (write_succeeds fs (filePath S) env ->
                (Save S fs env).2 = Ret tt /\
                exists final,
                  last (Save S fs env).1 = Some final /\
                  final !! filePath S = Some (File jsonBytes perm_0600))
            /\ (~ write_succeeds fs (filePath S) env ->
                panics (Save S fs env).2 /\
                exists final,
                  last (Save S fs env).1 = Some final /\
                  final !! filePath S = fs !! filePath S))).
Proof.
  split; [apply Save_unset|].
  intros Hp. split.
  { intros err Hm. unfold Save. rewrite bool_decide_eq_false_2 by exact Hp.
    rewrite Hm. reflexivity. }
  intros jsonBytes Hm. rewrite (Save_marshalled S fs env jsonBytes Hp Hm).
  cbn [fst snd]. split; [|split].
  - intros fs'. apply WriteFileAtomic_atomic.
  - intros Hw.
    destruct (WriteFileAtomic_success fs (filePath S) jsonBytes perm_0600 env Hw)
      as [-> Hfinal].
    split; [reflexivity|exact Hfinal].
  - intros Hw.
    destruct (WriteFileAtomic_failure fs (filePath S) jsonBytes perm_0600 env Hw)
      as [[err ->] Hfinal].
    split; [exact I|exact Hfinal].
Qed.

(** C7: with a file path set, [Save] hands the whole encoded state to one
    atomic write with permissions 0600: every state the disk passes
    through shows the target either as it was or with the complete new
    content; when the write goes through the call returns and the target
    holds the encoded state; when it does not, [Save] panics and the
    target is as before.  With the file path unset, or when encoding
    fails, [Save] panics without touching the disk. *)
Theorem C7_Save_is_atomic
  `{Codec} (S : SignState) (fs : gmap string node) (env : io_env) :
  (filePath S = "" ->
   Save S fs env = ([fs], Panic "cannot save SignState: filePath not set"))
  /\ (filePath S <> "" ->
      (forall err, MarshalJSONIndent S = Err err ->
                   Save S fs env = ([fs], Panic err))
      /\ (forall jsonBytes,
            MarshalJSONIndent S = Ok jsonBytes ->
            (forall fs', fs' ∈ (Save S fs env).1 ->
               fs' !! filePath S = fs !! filePath S \/
               fs' !! filePath S = Some (File jsonBytes perm_0600))
            /\ (write_succeeds fs (filePath S) env ->
                (Save S fs env).2 = Ret tt /\
                exists final,
                  last (Save S fs env).1 = Some final /\
                  final !! filePath S = Some (File jsonBytes perm_0600))
            /\ (~ write_succeeds fs (filePath S) env ->
                panics (Save S fs env).2 /\
                exists final,
                  last (Save S fs env).1 = Some final /\
                  final !! filePath S = fs !! filePath S))).
Proof. apply Save_cases. Qed.

Lemma C7_Save_is_atomic_witness :
  (Save signed_state ∅ quiet_env).2 = Ret tt /\
  exists final,
    last (Save signed_state ∅ quiet_env).1 = Some final /\
    final !! "state.json" =
    Some (File (RefCodec.encode_state signed_state) perm_0600).
Proof.
  destruct (C7_Save_is_atomic signed_state ∅ quiet_env) as [_ Hset].
  destruct Hset as [_ Hok]; [discriminate|].
  destruct (Hok (RefCodec.encode_state signed_state) eq_refl) as (_ & Hgood & _).
  apply Hgood. split; reflexivity.
Defined.

(** C10, as stated, fails: with the empty path on an empty disk the load
    fails and [Save] panics on the unset path, so the call does not return
    a nil error; it does not return. *)
Lemma C10_nil_error_fails_on_unset_path :
  ~ returns_nil_error ∅ "" quiet_env.
Proof. intros [st Hret]. vm_compute in Hret. discriminate Hret. Qed.

(** C10 (amended): [LoadOrCreateSignState] never returns a non-nil error.
    When the load succeeds it returns the loaded state and leaves the disk
    alone.  When the state file is missing, unreadable or does not parse,
    the load error is dropped: with a non-empty path and a write that goes
    through, the call returns the empty state (height 0, round 0, step 0,
    no signature, no sign bytes) bound to the path, and the path then
    holds that state's encoding; with an empty path, a failing encoding or
    a failing write, the call panics. *)
Theorem C10_LoadOrCreateSignState_resets
  `{Codec} (fs : gmap string node) (filepath : string) (env : io_env) :
  let fresh := with_filePath SignState_zero filepath in
  (forall st err, (LoadOrCreateSignState fs filepath env).2 <> Ret (st, Some err))
  /\ (~ load_fails fs filepath ->
      LoadOrCreateSignState fs filepath env =
      ([fs], Ret ((LoadSignState fs filepath).1, None)))
  /\ (load_fails fs filepath ->
      (forall jsonBytes,
         filepath <> "" ->
         MarshalJSONIndent fresh = Ok jsonBytes ->
         write_succeeds fs filepath env ->
         (LoadOrCreateSignState fs filepath env).2 = Ret (fresh, None) /\
         exists final,
           last (LoadOrCreateSignState fs filepath env).1 = Some final /\
           final !! filepath = Some (File jsonBytes perm_0600))
      /\ (filepath = "" \/ is_Err (MarshalJSONIndent fresh) \/
          ~ write_succeeds fs filepath env ->
          panics (LoadOrCreateSignState fs filepath env).2)).
Proof.
  intros fresh.
  pose proof (LoadSignState_error fs filepath) as Hload.
  pose proof (Save_cases fresh fs env) as [Hunset Hset].
  change (filePath fresh) with filepath in *.
  unfold LoadOrCreateSignState. fold fresh.
  destruct (LoadSignState fs filepath) as [existing [e|]] eqn:HL; simpl in Hload.
  - assert (load_fails fs filepath) as Hfails by (apply Hload; eauto).
    assert (forall p : list (gmap string node) * outcome unit,
              (let '(states, saved) := p in
               (states, call _ <- saved; Ret (fresh, @None error))) =
              (p.1, call _ <- p.2; Ret (fresh, None))) as ->
      by (intros [? ?]; reflexivity).
    cbn [fst snd].
    split; [|split; [tauto|intros _; split]].
    + intros st err. destruct (Save fresh fs env).2; simpl; congruence.
    + intros jsonBytes Hp Hm Hw.
      destruct (Hset Hp) as [_ Hok].
      destruct (Hok jsonBytes Hm) as (_ & Hgood & _).
      destruct (Hgood Hw) as [-> Hfinal]. split; [reflexivity|exact Hfinal].
    + assert (panics (Save fresh fs env).2 ->
              panics (call _ <- (Save fresh fs env).2; Ret (fresh, @None error)))
        as Hlift by (destruct (Save fresh fs env).2; simpl; tauto).
      intros Hcause. apply Hlift.
      destruct (decide (filepath = "")) as [Hp|Hp].
      { rewrite (Hunset Hp). exact I. }
      destruct (Hset Hp) as [Herr Hok].
      destruct (MarshalJSONIndent fresh) as [bz|err].
      * destruct Hcause as [?|[[]|Hw]]; [contradiction|].
        destruct (Hok bz eq_refl) as (_ & _ & Hbad).
        apply Hbad, Hw.
      * rewrite (Herr err eq_refl). exact I.
  - assert (~ load_fails fs filepath) as Hfine
      by (intros Hf; apply Hload in Hf; destruct Hf as [? [=]]).
    cbn [fst snd]. split; [intros st err [=]|]. split; [reflexivity|tauto].
Qed.

Lemma C10_LoadOrCreateSignState_resets_witness :
  load_fails corrupt_disk "state.json" /\
  (LoadOrCreateSignState corrupt_disk "state.json" quiet_env).2 =
  Ret (with_filePath SignState_zero "state.json", None).
Proof.
  assert (load_fails corrupt_disk "state.json") as Hfails
    by (vm_compute; eauto).
  split; [exact Hfails|].
  destruct (C10_LoadOrCreateSignState_resets corrupt_disk "state.json" quiet_env)
    as (_ & _ & Hreset).
  destruct (Hreset Hfails) as [Hgood _].
  destruct (Hgood (RefCodec.encode_state (with_filePath SignState_zero "state.json")))
    as [Hret _].
  - discriminate.
  - reflexivity.
  - split; [reflexivity|]. vm_compute. reflexivity.
  - exact Hret.
Defined.

(** ** The cosigner key file *)

#[local] Existing Instance RefKeyLibs.libs.

Example ref_proto_round_trip :
  round_trips KeyProto.MarshalJSON KeyProto.UnmarshalJSON
    CosignerKey_zero ed25519_key.
Proof.
  eexists. split; [vm_compute; reflexivity|]. vm_compute. reflexivity.
Qed.

Example ref_amino_round_trip :
  round_trips KeyAmino.MarshalJSON KeyAmino.UnmarshalJSON
    CosignerKey_zero ed25519_key.
Proof.
  eexists. split; [vm_compute; reflexivity|]. vm_compute. reflexivity.
Qed.

Example ref_proto_round_trip_secp256k1 :
  round_trips KeyProto.MarshalJSON KeyProto.UnmarshalJSON
    CosignerKey_zero secp256k1_key.
Proof.
  eexists. split; [vm_compute; reflexivity|]. vm_compute. reflexivity.
Qed.

Example ref_amino_secp256k1 :
  exists data,
    KeyAmino.MarshalJSON secp256k1_key = Ok data /\
    (KeyAmino.UnmarshalJSON data CosignerKey_zero).2 =
    Some "unrecognized prefix bytes".
Proof.
  eexists. split; [vm_compute; reflexivity|]. vm_compute. reflexivity.
Qed.

Section CosignerKey_facts.

Context `{KeyLibs}.

Lemma marshal_pubs_spec (pubKeys : list rsa.PublicKey) acc :
  marshal_pubs pubKeys acc = (acc ++ (MarshalPKCS1PublicKey <$> pubKeys))%list.
Proof.
  revert acc. induction pubKeys as [|k ks IH]; intros acc; simpl.
  - rewrite app_nil_r. reflexivity.
  - rewrite IH, <- app_assoc. reflexivity.
Qed.

Lemma parse_pubs_spec (pubKeys : list rsa.PublicKey) acc :
  (forall pub, pub ∈ pubKeys ->
     ParsePKCS1PublicKey (MarshalPKCS1PublicKey pub) = Ok pub) ->
  parse_pubs (MarshalPKCS1PublicKey <$> pubKeys) acc = ((acc ++ pubKeys)%list, None).
Proof.
  revert acc. induction pubKeys as [|k ks IH]; intros acc Hall; simpl.
  - rewrite app_nil_r. reflexivity.
  - rewrite (Hall k) by apply list_elem_of_here.
    rewrite IH, <- app_assoc; [reflexivity|].
    intros pub Hin. apply Hall, list_elem_of_further, Hin.
Qed.

Lemma through_alias_key_file (receiver key : CosignerKey) pubkey :
  with_keys
    (with_CosignerKeys (through_alias receiver (key_file key pubkey))
       (CosignerKeys key))
    (RSAKey key) (PubKey_ key) = key.
Proof. destruct key; reflexivity. Qed.

(** The amino revision decodes the validator key into an Ed25519 key,
    whatever the libraries do. *)
Lemma KeyAmino_decodes_ed25519 data (receiver key : CosignerKey) :
  KeyAmino.UnmarshalJSON data receiver = (key, None) ->
  exists k, PubKey_ key = Some (PubKeyEd25519 k).
Proof.
  unfold KeyAmino.UnmarshalJSON.
  destruct (json_Unmarshal data (aux_of receiver)) as [aux [e|]]; [intros [=]|].
  destruct (ParsePKCS1PrivateKey (rsa_key aux)); [|intros [=]].
  destruct (UnmarshalBinaryBare_ed25519 (pub_key aux)); [|intros [=]].
  destruct (parse_pubs (rsa_pubs aux) []) as [keys [e|]]; intros [= <-].
  simpl. eauto.
Qed.

Lemma KeyAmino_no_round_trip (receiver key : CosignerKey) :
  (forall k, PubKey_ key <> Some (PubKeyEd25519 k)) ->
  ~ round_trips KeyAmino.MarshalJSON KeyAmino.UnmarshalJSON receiver key.
Proof.
  intros Hne (data & _ & Hback).
  destruct (KeyAmino_decodes_ed25519 data receiver key Hback) as [k Hk].
  exact (Hne k Hk).
Qed.

End CosignerKey_facts.

(** C8, as stated, fails: a cosigner key whose validator key is a
    secp256k1 key does not come back from the amino revision, which
    decodes the validator key into an Ed25519 key. *)
Lemma C8_round_trip_fails_for_secp256k1 :
  ~ round_trips KeyAmino.MarshalJSON KeyAmino.UnmarshalJSON
      CosignerKey_zero secp256k1_key.
Proof. apply KeyAmino_no_round_trip. intros k. discriminate. Qed.

(** C8 (amended): a cosigner key round-trips through [MarshalJSON] and
    [UnmarshalJSON], field for field and with the peer keys in their
    order, whenever the libraries give back what they were given: the
    PKCS#1 parsers the RSA keys, the JSON decoder the object, and the
    public key decoder the validator key, which in the amino revision
    must therefore be an Ed25519 key.  The object written carries the RSA
    keys as PKCS#1 bytes and the validator key in its encoded form. *)
Theorem C8_CosignerKey_round_trip
  `{KeyLibs} (key receiver : CosignerKey) (pubkey data : list byte) :
  ParsePKCS1PrivateKey (MarshalPKCS1PrivateKey (RSAKey key)) = Ok (RSAKey key) ->
  (forall pub, pub ∈ CosignerKeys key ->
     ParsePKCS1PublicKey (MarshalPKCS1PublicKey pub) = Ok pub) ->
  json_Marshal (key_file key pubkey) = Ok data ->
  json_Unmarshal data (aux_of receiver) = (key_file key pubkey, None) ->
  (forall protoPubkey,
     PubKeyToProto (PubKey_ key) = Ok protoPubkey ->
     proto_Marshal protoPubkey = Ok pubkey ->
     proto_Unmarshal pubkey = Ok protoPubkey ->
     PubKeyFromProto protoPubkey = Ok (PubKey_ key) ->
     KeyProto.MarshalJSON key = Ok data /\
     KeyProto.UnmarshalJSON data receiver = (key, None))
  /\ (forall k,
        MarshalBinaryBare (PubKey_ key) = Ok pubkey ->
        UnmarshalBinaryBare_ed25519 pubkey = Ok k ->
        PubKey_ key = Some (PubKeyEd25519 k) ->
        KeyAmino.MarshalJSON key = Ok data /\
        KeyAmino.UnmarshalJSON data receiver = (key, None)).
Proof.
  intros Hpriv Hpubs Hjm Hju. split.
  - intros pp Hto Hpm Hpu Hfrom. split.
    + unfold KeyProto.MarshalJSON. rewrite Hto, Hpm, marshal_pubs_spec.
      exact Hjm.
    + unfold KeyProto.UnmarshalJSON. rewrite Hju. cbn [rsa_key pub_key rsa_pubs key_file].
      rewrite Hpriv, Hpu, Hfrom, (parse_pubs_spec _ [] Hpubs).
      cbn [app]. rewrite through_alias_key_file. reflexivity.
  - intros k Hm Hu Hk. split.
    + unfold KeyAmino.MarshalJSON. rewrite Hm, marshal_pubs_spec. exact Hjm.
    + unfold KeyAmino.UnmarshalJSON. rewrite Hju. cbn [rsa_key pub_key rsa_pubs key_file].
      rewrite Hpriv, Hu, (parse_pubs_spec _ [] Hpubs).
      cbn [app]. rewrite <- Hk, through_alias_key_file. reflexivity.
Qed.

Lemma C8_CosignerKey_round_trip_witness :
  round_trips KeyAmino.MarshalJSON KeyAmino.UnmarshalJSON
    CosignerKey_zero ed25519_key
  /\ round_trips KeyProto.MarshalJSON KeyProto.UnmarshalJSON
       CosignerKey_zero ed25519_key.
Proof.
  pose (k := replicate 32 x07%byte).
  pose (amino := (RefKeyLibs.prefix_ed25519 ++ x20%byte :: k)%list).
  pose (proto := RefCodec.field_bytes 1 k).
  assert (forall pub, pub ∈ CosignerKeys ed25519_key ->
            ParsePKCS1PublicKey (MarshalPKCS1PublicKey pub) = Ok pub) as Hpubs.
  { intros pub Hin. simpl in Hin.
    repeat (apply elem_of_cons in Hin as [->|Hin]; [vm_compute; reflexivity|]).
    apply elem_of_nil in Hin. destruct Hin. }
  split.
  - exists (RefKeyLibs.encode_file (key_file ed25519_key amino)).
    destruct (C8_CosignerKey_round_trip ed25519_key CosignerKey_zero amino
                (RefKeyLibs.encode_file (key_file ed25519_key amino)))
      as [_ Hamino].
    + vm_compute. reflexivity.
    + exact Hpubs.
    + reflexivity.
    + vm_compute. reflexivity.
    + apply (Hamino k); vm_compute; reflexivity.
  - exists (RefKeyLibs.encode_file (key_file ed25519_key proto)).
    destruct (C8_CosignerKey_round_trip ed25519_key CosignerKey_zero proto
                (RefKeyLibs.encode_file (key_file ed25519_key proto)))
      as [Hproto _].
    + vm_compute. reflexivity.
    + exact Hpubs.
    + reflexivity.
    + vm_compute. reflexivity.
    + apply (Hproto (Some (PubKeyEd25519 k))); vm_compute; reflexivity.
Defined.

(** ** The reconnecting remote signer *)

Section RemoteSigner_facts.

Context `{PrivValidator}.

(** Whatever the request, an error carried by the response has code 0. *)
Lemma handleRequest_code_zero chainID req privVal res e :
  (handleRequest chainID req privVal).1.1 = Some res ->
  response_error res = Some e ->
  Code e = 0.
Proof.
  unfold handleRequest. destruct req; simpl.
  - destruct (GetPubKey privVal) as [pk [err|]]; simpl;
      intros [= <-]; simpl; intros [= <-]; reflexivity.
  - intros [=].
  - destruct (SignVote chainID vote privVal) as [[v pv'] [err|]]; simpl;
      intros [= <-]; simpl; intros [= <-]; reflexivity.
  - intros [=].
  - destruct (SignProposal chainID proposal privVal) as [[p pv'] [err|]]; simpl;
      intros [= <-]; simpl; intros [= <-]; reflexivity.
  - intros [=].
  - intros [= <-]; simpl; intros [=].
  - intros [=].
Qed.

(** With the frames passing, an iteration keeps its connection. *)
Lemma iteration_keeps_connection chainID c privVal env req :
  running_at_top env = true ->
  running_after_dial env = true ->
  read_msg env = Ok req ->
  write_msg env = None ->
  let r := iteration chainID (Some c) privVal env in
  conn_after r = Some c /\ closed r = [] /\ next r = Continue /\
  sent r = Some (handleRequest chainID req privVal).1.1.
Proof.
  intros Ht Hd Hr Hw. unfold iteration. rewrite Ht, Hd, Hr, Hw. simpl.
  destruct (handleRequest chainID req privVal) as [[res err] pv'].
  simpl. auto.
Qed.

(** An iteration that drops its connection to dial again met a transport
    failure. *)
Lemma iteration_redials conn chainID privVal env :
  redials (iteration chainID conn privVal env) -> transport_failure env.
Proof.
  unfold redials, transport_failure, iteration.
  destruct (running_at_top env); simpl; [|intros (_ & _ & [=])].
  destruct (match conn with Some c => Some c | None => dial (dial_attempts env) end)
    as [c|]; [|intros (_ & _ & [=])].
  destruct (running_after_dial env); simpl; [|intros (_ & _ & [=])].
  destruct (read_msg env) as [req|e]; [|intros _; left; exact I].
  destruct (handleRequest chainID req privVal) as [[res err] pv'].
  destruct (write_msg env) as [e|]; simpl; [intros _; right; eauto|].
  intros ([] & _); reflexivity.
Qed.

(** The same along a run of the loop: the i-th iteration redials only on
    a transport failure in the i-th answers. *)
Lemma loop_redials chainID envs conn privVal i r env :
  loop chainID conn privVal envs !! i = Some r ->
  envs !! i = Some env ->
  redials r -> transport_failure env.
Proof.
  revert conn privVal i.
  induction envs as [|e rest IH]; intros conn privVal i; simpl; [intros [=]|].
  destruct i as [|i]; simpl.
  - destruct (next (iteration chainID conn privVal e));
      intros [= <-] [= <-]; apply iteration_redials.
  - destruct (next (iteration chainID conn privVal e)); simpl;
      [apply IH|intros [=]|intros [=]].
Qed.

End RemoteSigner_facts.

(** C6: when the validator fails on a get-pubkey, sign-vote or
    sign-proposal request, the response of [handleRequest] is the response
    of that kind with no payload and a structured error whose code is 0
    and whose description is the error text; any error a response carries
    has code 0.  An iteration of the loop whose frames pass keeps its
    connection and sends that response, whatever the validator returned;
    along every run, an iteration that closes its connection to dial again
    met a failure reading or writing a framed message. *)
Theorem C6_signing_errors_keep_the_connection
  `{PrivValidator} (chainID : string) (privVal : validator) :
  (forall pubKey err,
     GetPubKey privVal = (pubKey, Some err) ->
     (handleRequest chainID PubKeyRequest privVal).1.1 =
     Some (PubKeyResponse None (Some {| Code := 0; Description := err |})))
  /\ (forall vote vote' privVal' err,
        SignVote chainID vote privVal = (vote', privVal', Some err) ->
        (handleRequest chainID (SignVoteRequest vote) privVal).1.1 =
        Some (SignedVoteResponse None
                (Some {| Code := 0; Description := err |})))
  /\ (forall proposal proposal' privVal' err,
        SignProposal chainID proposal privVal = (proposal', privVal', Some err) ->
        (handleRequest chainID (SignProposalRequest proposal) privVal).1.1 =
        Some (SignedProposalResponse None
                (Some {| Code := 0; Description := err |})))
  /\ (forall req res e,
        (handleRequest chainID req privVal).1.1 = Some res ->
        response_error res = Some e -> Code e = 0)
  /\ (forall c env req,
        running_at_top env = true ->
        running_after_dial env = true ->
        read_msg env = Ok req ->
        write_msg env = None ->
        let r := iteration chainID (Some c) privVal env in
        conn_after r = Some c /\ closed r = [] /\ next r = Continue /\
        sent r = Some (handleRequest chainID req privVal).1.1)
  /\ (forall envs conn i r env,
        loop chainID conn privVal envs !! i = Some r ->
        envs !! i = Some env ->
        redials r -> transport_failure env).
Proof.
  split; [|split; [|split; [|split; [|split]]]].
  - intros pubKey err Hg. unfold handleRequest. rewrite Hg. reflexivity.
  - intros vote vote' privVal' err Hs. unfold handleRequest. rewrite Hs.
    reflexivity.
  - intros proposal proposal' privVal' err Hs. unfold handleRequest.
    rewrite Hs. reflexivity.
  - intros req res e. apply handleRequest_code_zero.
  - intros c env req. apply iteration_keeps_connection.
  - intros envs conn i r env. apply loop_redials.
Qed.

#[local] Existing Instance RefValidator.pv.

Lemma C6_signing_errors_keep_the_connection_witness :
  (handleRequest "test-chain" (SignVoteRequest stale_vote) signed_state).1.1 =
  Some (SignedVoteResponse None
          (Some {| Code := 0;
                   Description := "height regression. Got 0, last height 1" |}))
  /\ conn_after (iteration "test-chain" (Some 7) signed_state
                   (quiet_iteration (SignVoteRequest stale_vote)))
     = Some 7.
Proof.
  destruct (C6_signing_errors_keep_the_connection (H := RefValidator.pv)
              "test-chain" signed_state)
    as (_ & Hvote & _ & _ & Hkeep & _).
  split.
  - apply (Hvote stale_vote stale_vote signed_state).
    vm_compute. reflexivity.
  - apply (Hkeep 7 (quiet_iteration (SignVoteRequest stale_vote))
             (SignVoteRequest stale_vote)); reflexivity.
Defined.

(** ** Start-up *)

Section Main_facts.

Context `{Codec} `{KeyLibs}.

Variable UnmarshalKey : list byte -> CosignerKey -> CosignerKey * option error.

(** An identifier out of range stops the loop over the cosigners with
    [log.Fatalf]; the index into the peer keys is never out of range. *)
Lemma cosigner_peers_out_of_range key cosigners peers c :
  c ∈ cosigners ->
  CosignerConfig.ID c < 1 \/
  CosignerConfig.ID c > Z.of_nat (length (CosignerKeys key)) ->
  exists msg, cosigner_peers key cosigners peers = inr msg.
Proof.
  intros Hin Hbad. revert peers.
  induction cosigners as [|c' rest IH]; intros peers.
  { apply elem_of_nil in Hin. destruct Hin. }
  simpl.
  destruct ((CosignerConfig.ID c' <? 1) ||
            (CosignerConfig.ID c' >? Z.of_nat (length (CosignerKeys key))))
    eqn:Hguard; [eauto|].
  apply orb_false_iff in Hguard as [Hlo Hhi].
  apply Z.ltb_ge in Hlo. rewrite Z.gtb_ltb in Hhi. apply Z.ltb_ge in Hhi.
  apply elem_of_cons in Hin as [->|Hin]; [lia|].
  destruct (lookup_lt_is_Some_2 (CosignerKeys key)
              (Z.to_nat (CosignerConfig.ID c' - 1))) as [pub ->]; [lia|].
  apply IH, Hin.
Qed.

Lemma start_mpc_terminated_no_services env config :
  terminated (status (start_mpc UnmarshalKey env config)) ->
  services (start_mpc UnmarshalKey env config) = [].
Proof.
  unfold start_mpc. repeat case_match; simpl; tauto.
Qed.

Lemma start_mpc_invalid env config :
  Config.CosignerThreshold config = 0 \/ Config.ListenAddress config = "" \/
  (exists c, c ∈ Config.Cosigners config /\
     let n := Z.of_nat (length (CosignerKeys
                (LoadCosignerKey UnmarshalKey (disk env)
                   (Config.PrivValKeyFile config)).1)) in
     (CosignerConfig.ID c < 1 \/ CosignerConfig.ID c > n)) ->
  terminated (status (start_mpc UnmarshalKey env config)).
Proof.
  intros Hbad. unfold start_mpc.
  destruct (Z.eqb_spec (Config.CosignerThreshold config) 0) as [Ht|Ht];
    [exact I|].
  case_bool_decide as Hl; [exact I|].
  destruct Hbad as [?|[?|(c & Hin & Hrange)]]; [contradiction..|].
  destruct (LoadCosignerKey UnmarshalKey (disk env) (Config.PrivValKeyFile config))
    as [key [err|]]; [exact I|]. cbn [fst] in Hrange.
  destruct (LoadOrCreateSignState _ _ _) as [disks [[st [err|]]|msg]];
    [exact I| |exact I].
  destruct (LoadSignState _ _) as [share [err|]]; [exact I|].
  destruct (cosigner_peers_out_of_range key (Config.Cosigners config)
              [(ID key, rsa.Public (RSAKey key))] c Hin Hrange) as [msg ->].
  exact I.
Qed.

End Main_facts.

(** C9: whenever the configuration loaded is invalid, that is, the
    chain id is empty, or the mode is mpc with a zero threshold or an
    empty listen address, or the mode is neither single nor mpc, or the
    mode is mpc and a configured cosigner identifier lies outside 1..N
    for the N peer keys of the cosigner key, start-up ends the process
    ([log.Fatal] or a panic) and no service has been started. *)
Theorem C9_invalid_config_stops_startup
  `{Codec} `{KeyLibs}
  (UnmarshalKey : list byte -> CosignerKey -> CosignerKey * option error)
  (env : main_env) (config : Config.t) :
  LoadConfigFromFile env (configFile env) = Ok config ->
  invalid_config UnmarshalKey env config ->
  terminated (status (main UnmarshalKey env)) /\
  services (main UnmarshalKey env) = [].
Proof.
  intros Hload Hbad. unfold main.
  case_bool_decide as Hflag; [split; [exact I|reflexivity]|].
  rewrite Hload.
  case_bool_decide as Hchain; [split; [exact I|reflexivity]|].
  destruct Hbad as [Hc | Hbad]; [contradiction|].
  case_bool_decide as Hsingle.
  { exfalso. destruct Hbad as [[Hm _] | [[Hs _] | [Hm _]]];
      try contradiction; rewrite Hsingle in Hm; discriminate. }
  case_bool_decide as Hmpc; cycle 1.
  { simpl. split; [exact I|reflexivity]. }
  assert (terminated (status (start_mpc UnmarshalKey env config))) as Hterm.
  { apply start_mpc_invalid.
    destruct Hbad as [[_ [?|?]] | [[_ ?] | [_ ?]]]; auto; contradiction. }
  pose proof (start_mpc_terminated_no_services UnmarshalKey env config Hterm)
    as Hnone.
  destruct (status (start_mpc UnmarshalKey env config)) eqn:Hst;
    [| |destruct Hterm]; rewrite Hst; split; try exact I; exact Hnone.
Qed.

Example startup_refuses_cosigner_five :
  status (main KeyProto.UnmarshalJSON (startup_env five_cosigners_config)) =
  Fatal "Unexpected cosigner ID 5".
Proof. vm_compute. reflexivity. Qed.

Lemma C9_invalid_config_stops_startup_witness :
  terminated (status (main KeyProto.UnmarshalJSON
                        (startup_env five_cosigners_config))) /\
  services (main KeyProto.UnmarshalJSON (startup_env five_cosigners_config)) = [].
Proof.
  apply (C9_invalid_config_stops_startup KeyProto.UnmarshalJSON
           (startup_env five_cosigners_config) five_cosigners_config).
  - reflexivity.
  - right. right. right. split; [reflexivity|].
    exists {| CosignerConfig.ID := 5; CosignerConfig.Address := "tcp://e:1234" |}.
    split.
    + apply list_elem_of_further, list_elem_of_here.
    + right. vm_compute. reflexivity.
Defined.

(* ================================================================== *)
(** * Further properties *)
(* ================================================================== *)

(** ** More on the watermark check *)

Lemma hrs_lt_trans (a b c : HRS) : hrs_lt a b -> hrs_lt b c -> hrs_lt a c.
Proof.
  destruct a as [[h1 r1] s1], b as [[h2 r2] s2], c as [[h3 r3] s3].
  unfold hrs_lt. lia.
Qed.

(** X1: [CheckHRS] decides by nil-ness, for every stored state: an error
    exactly below the watermark or at it with nil sign bytes; [(true,
    nil)] exactly at the watermark with sign bytes and signature both
    non-nil; a panic exactly at the watermark with non-nil sign bytes and
    a nil signature; [(false, nil)] exactly above the watermark.  An
    empty but non-nil slice counts as present. *)
Theorem X1_CheckHRS_decides_by_nil (S : SignState) (h r s : Z) :
  (Regression (CheckHRS S h r s) <->
     hrs_lt (h, r, s) (hrs_of S) \/ ((h, r, s) = hrs_of S /\ SignBytes S = None))
  /\ (Replay (CheckHRS S h r s) <->
        (h, r, s) = hrs_of S /\ SignBytes S <> None /\ Signature S <> None)
  /\ (panics (CheckHRS S h r s) <->
        (h, r, s) = hrs_of S /\ SignBytes S <> None /\ Signature S = None)
  /\ (FreshOK (CheckHRS S h r s) <-> hrs_lt (hrs_of S) (h, r, s)).
Proof.
  destruct (hrs_trichotomy (h, r, s) (hrs_of S)) as [Hlt | [Heq | Hgt]].
  - pose proof (CheckHRS_below S h r s Hlt) as (b & e & Hres).
    assert ((h, r, s) <> hrs_of S) as Hne
      by (intros E; rewrite E in Hlt; exact (hrs_lt_irrefl _ Hlt)).
    pose proof (hrs_lt_asym _ _ Hlt) as Hngt.
    unfold Regression, Replay, FreshOK, panics. rewrite Hres.
    split; [split; eauto|].
    split; [split; [congruence|tauto]|].
    split; [split; tauto|].
    split; [congruence|tauto].
  - assert (~ hrs_lt (h, r, s) (hrs_of S)) as Hirr
      by (rewrite Heq; apply hrs_lt_irrefl).
    assert (~ hrs_lt (hrs_of S) (h, r, s)) as Hirr'
      by (rewrite Heq; apply hrs_lt_irrefl).
    assert (CheckHRS S h r s = CheckHRS S (Height S) (Round S) (Step S)) as ->
      by (unfold hrs_of in Heq; congruence).
    unfold Regression, Replay, FreshOK, panics. rewrite CheckHRS_at.
    destruct (SignBytes S) as [sb|]; destruct (Signature S) as [sg|].
    + split; [split; [intros (? & ? & ?); congruence
                     |intros [?|[_ ?]]; [tauto|congruence]]|].
      split; [split; [intros _; repeat split; congruence|reflexivity]|].
      split; [split; [tauto|intros (_ & _ & ?); congruence]|].
      split; [congruence|tauto].
    + split; [split; [intros (? & ? & ?); congruence
                     |intros [?|[_ ?]]; [tauto|congruence]]|].
      split; [split; [congruence|intros (_ & _ & ?); congruence]|].
      split; [split; [intros _; repeat split; congruence|tauto]|].
      split; [congruence|tauto].
    + split; [split; [intros _; right; tauto|eauto]|].
      split; [split; [congruence|intros (_ & ? & _); congruence]|].
      split; [split; [tauto|intros (_ & ? & _); congruence]|].
      split; [congruence|tauto].
    + split; [split; [intros _; right; tauto|eauto]|].
      split; [split; [congruence|intros (_ & ? & _); congruence]|].
      split; [split; [tauto|intros (_ & ? & _); congruence]|].
      split; [congruence|tauto].
  - pose proof (CheckHRS_above S h r s Hgt) as Hres.
    assert ((h, r, s) <> hrs_of S) as Hne
      by (intros E; rewrite E in Hgt; exact (hrs_lt_irrefl _ Hgt)).
    pose proof (hrs_lt_asym _ _ Hgt) as Hnlt.
    unfold Regression, Replay, FreshOK, panics. rewrite Hres.
    split; [split; [intros (? & ? & ?); congruence|tauto]|].
    split; [split; [congruence|tauto]|].
    split; [split; tauto|].
    split; [tauto|reflexivity].
Qed.

(** A request that is not fresh lies at or below the watermark. *)
Lemma CheckHRS_not_fresh (S : SignState) (h r s : Z) :
  CheckHRS S h r s <> Ret (false, None) ->
  hrs_lt (h, r, s) (hrs_of S) \/ (h, r, s) = hrs_of S.
Proof.
  intros Hnf.
  destruct (hrs_trichotomy (h, r, s) (hrs_of S)) as [Hlt | [Heq | Hgt]]; auto.
  destruct Hnf. apply CheckHRS_above, Hgt.
Qed.

(** X2: refusals persist as the watermark advances.  If the watermark of
    [S2] lies strictly above that of [S1], every request that [S1] does not
    accept as fresh (an error, a replay or the panic) is refused with an
    error by [S2]; so a request [S2] accepts as fresh was fresh for [S1]
    too. *)
Theorem X2_refusals_persist (S1 S2 : SignState) (h r s : Z) :
  hrs_lt (hrs_of S1) (hrs_of S2) ->
  (CheckHRS S1 h r s <> Ret (false, None) -> Regression (CheckHRS S2 h r s))
  /\ (CheckHRS S2 h r s = Ret (false, None) ->
      CheckHRS S1 h r s = Ret (false, None)).
Proof.
  intros Hadv. split.
  - intros Hnf. apply CheckHRS_below.
    destruct (CheckHRS_not_fresh S1 h r s Hnf) as [Hlt | Heq].
    + exact (hrs_lt_trans _ _ _ Hlt Hadv).
    + rewrite Heq. exact Hadv.
  - intros Hfresh.
    destruct (hrs_trichotomy (h, r, s) (hrs_of S2)) as [Hlt | [Heq | Hgt]].
    + destruct (CheckHRS_below S2 h r s Hlt) as (b & e & Hres). congruence.
    + assert (CheckHRS S2 h r s = CheckHRS S2 (Height S2) (Round S2) (Step S2))
        as E by (unfold hrs_of in Heq; congruence).
      rewrite E, CheckHRS_at in Hfresh.
      destruct (SignBytes S2), (Signature S2); discriminate.
    + apply CheckHRS_above. exact (hrs_lt_trans _ _ _ Hadv Hgt).
Qed.

Lemma X2_refusals_persist_witness :
  Regression (CheckHRS state_after_P1 1 0 stepPropose).
Proof.
  destruct (X2_refusals_persist signed_state state_after_P1 1 0 stepPropose)
    as [Hkeep _].
  - vm_compute. left. reflexivity.
  - apply Hkeep. vm_compute. discriminate.
Defined.

(** ** More on the payload inspector *)

(** X3: what [UnpackHRS] returns.  Without an error the step is propose,
    prevote or precommit, never none, and it is propose exactly when the
    proposal decoding succeeded; with an error height, round and step are
    all zero. *)
Theorem X3_UnpackHRS_result
  `{Codec} (signBytes : bytes) (h r s : Z) (err : option error) :
  UnpackHRS signBytes = Ret (h, r, s, err) ->
  match err with
  | None =>
      (s = stepPropose \/ s = stepPrevote \/ s = stepPrecommit) /\
      (s = stepPropose <-> is_Ok (UnmarshalProposal (elems signBytes)))
  | Some _ => h = 0 /\ r = 0 /\ s = 0
  end.
Proof.
  unfold UnpackHRS.
  destruct (UnmarshalProposal (elems signBytes)) as [p|ep].
  - intros [= <- <- <- <-]. simpl. tauto.
  - destruct (UnmarshalVote (elems signBytes)) as [v|ev].
    + unfold CanonicalVoteToStep.
      destruct (_ =? _); [intros [= <- <- <- <-]; simpl; split; [tauto|]|].
      { unfold stepPrevote, stepPropose. split; [discriminate|intros []]. }
      destruct (_ =? _); [intros [= <- <- <- <-]; simpl; split; [tauto|]|].
      { unfold stepPrecommit, stepPropose. split; [discriminate|intros []]. }
      intros [=].
    + intros [= <- <- <- <-]. auto.
Qed.

Lemma X3_UnpackHRS_result_witness :
  (stepPropose = stepPropose \/ stepPropose = stepPrevote \/
   stepPropose = stepPrecommit) /\
  (stepPropose = stepPropose <->
   is_Ok (UnmarshalProposal
            (elems (Some (RefCodec.encode_proposal proposal_P1))))).
Proof.
  apply (X3_UnpackHRS_result (Some (RefCodec.encode_proposal proposal_P1))
           10 0 stepPropose None).
  vm_compute. reflexivity.
Defined.

(** X4: [UnpackHRS] panics exactly when the bytes do not decode as a
    proposal, do decode as a vote, and the vote's type is neither prevote
    nor precommit. *)
Theorem X4_UnpackHRS_panics_iff `{Codec} (signBytes : bytes) :
  panics (UnpackHRS signBytes) <->
  is_Err (UnmarshalProposal (elems signBytes)) /\
  exists vote,
    UnmarshalVote (elems signBytes) = Ok vote /\
    CanonicalVote.Type_ vote <> PrevoteType /\
    CanonicalVote.Type_ vote <> PrecommitType.
Proof.
  unfold UnpackHRS.
  destruct (UnmarshalProposal (elems signBytes)) as [p|ep]; simpl.
  { split; [intros []|intros [[] _]]. }
  destruct (UnmarshalVote (elems signBytes)) as [v|ev]; simpl.
  - unfold CanonicalVoteToStep.
    destruct (Z.eqb_spec (CanonicalVote.Type_ v) PrevoteType) as [E1|E1]; simpl.
    { split; [intros []|intros (_ & v' & [= <-] & ? & _); contradiction]. }
    destruct (Z.eqb_spec (CanonicalVote.Type_ v) PrecommitType) as [E2|E2]; simpl.
    { split; [intros []|intros (_ & v' & [= <-] & _ & ?); contradiction]. }
    split; [intros _; split; [exact I|eauto]|intros _; exact I].
  - split; [intros []|intros (_ & v' & [=] & _)].
Qed.

Lemma X4_UnpackHRS_panics_iff_witness :
  panics (UnpackHRS (Some (RefCodec.encode_vote odd_vote))).
Proof.
  apply (X4_UnpackHRS_panics_iff (Some (RefCodec.encode_vote odd_vote))).
  split.
  - vm_compute. exact I.
  - exists odd_vote. split; [vm_compute; reflexivity|]. split; discriminate.
Defined.

(** X5: [OnlyDifferByTimestamp] panics exactly when the stored step is
    propose, prevote or precommit and the stored or the candidate bytes do
    not decode as that step's payload type.  For any other stored step
    (none, in a state that has not signed) it returns the zero time and
    [false] without decoding anything. *)
Theorem X5_OnlyDifferByTimestamp_panics_iff
  `{Codec} (S : SignState) (new : bytes) (now : Time) :
  (panics (OnlyDifferByTimestamp S new now) <->
   (Step S = stepPropose /\
    (is_Err (UnmarshalProposal (elems (SignBytes S))) \/
     is_Err (UnmarshalProposal (elems new))))
   \/ ((Step S = stepPrevote \/ Step S = stepPrecommit) /\
       (is_Err (UnmarshalVote (elems (SignBytes S))) \/
        is_Err (UnmarshalVote (elems new)))))
  /\ (Step S <> stepPropose -> Step S <> stepPrevote ->
      Step S <> stepPrecommit ->
      OnlyDifferByTimestamp S new now = Ret (Time_zero, false)).
Proof.
  unfold OnlyDifferByTimestamp, stepPropose, stepPrevote, stepPrecommit.
  destruct (Z.eqb_spec (Step S) 1) as [E1|E1].
  { split; [|contradiction].
    unfold checkProposalOnlyDifferByTimestamp.
    destruct (UnmarshalProposal (elems (SignBytes S))); simpl; [|intuition].
    destruct (UnmarshalProposal (elems new)); simpl; [|intuition].
    split; [intros []|]. intros [[_ [[]|[]]]|[[?|?] _]]; lia. }
  destruct (Z.eqb_spec (Step S) 2) as [E2|E2]; simpl.
  { split; [|contradiction].
    unfold checkVoteOnlyDifferByTimestamp.
    destruct (UnmarshalVote (elems (SignBytes S))); simpl; [|intuition].
    destruct (UnmarshalVote (elems new)); simpl; [|intuition].
    split; [intros []|]. intros [[? _]|[_ [[]|[]]]]; lia. }
  destruct (Z.eqb_spec (Step S) 3) as [E3|E3]; simpl.
  { split; [|contradiction].
    unfold checkVoteOnlyDifferByTimestamp.
    destruct (UnmarshalVote (elems (SignBytes S))); simpl; [|intuition].
    destruct (UnmarshalVote (elems new)); simpl; [|intuition].
    split; [intros []|]. intros [[? _]|[_ [[]|[]]]]; lia. }
  split; [|reflexivity].
  split; [intros []|]. intros [[? _]|[[?|?] _]]; contradiction.
Qed.

Lemma X5_OnlyDifferByTimestamp_panics_iff_witness :
  OnlyDifferByTimestamp unsigned_yet (Some [xff%byte]) now0 =
  Ret (Time_zero, false).
Proof.
  destruct (X5_OnlyDifferByTimestamp_panics_iff
              unsigned_yet (Some [xff%byte]) now0) as [_ Hnone].
  apply Hnone; discriminate.
Defined.

(** X6: presenting the stored bytes again always compares equal: when the
    stored step is propose, prevote or precommit and the stored bytes
    decode, the comparison of the state with its own sign bytes returns
    the stored timestamp and [true], for every codec and every clock. *)
Theorem X6_same_bytes_compare_equal
  `{Codec} (S : SignState) (now : Time) :
  (Step S = stepPropose ->
   forall p, UnmarshalProposal (elems (SignBytes S)) = Ok p ->
   OnlyDifferByTimestamp S (SignBytes S) now =
   Ret (CanonicalProposal.Timestamp p, true))
  /\ (Step S = stepPrevote \/ Step S = stepPrecommit ->
      forall v, UnmarshalVote (elems (SignBytes S)) = Ok v ->
      OnlyDifferByTimestamp S (SignBytes S) now =
      Ret (CanonicalVote.Timestamp v, true)).
Proof.
  split.
  - intros Hs p Hp. rewrite (OnlyDifferByTimestamp_propose S _ now Hs).
    rewrite (checkProposal_decoded _ _ now _ _ Hp Hp).
    f_equal. f_equal. apply bytes_Equal_true. reflexivity.
  - intros Hs v Hv. rewrite (OnlyDifferByTimestamp_vote S _ now Hs).
    rewrite (checkVote_decoded _ _ now _ _ Hv Hv).
    f_equal. f_equal. apply bytes_Equal_true. reflexivity.
Qed.

Lemma X6_same_bytes_compare_equal_witness :
  OnlyDifferByTimestamp state_after_P1 (SignBytes state_after_P1) now0 =
  Ret ({| unix_sec := 1600000000; nsec := 5 |}, true).
Proof.
  destruct (X6_same_bytes_compare_equal state_after_P1 now0) as [Hp _].
  apply (Hp eq_refl proposal_P1). vm_compute. reflexivity.
Defined.

Lemma set_Timestamp_agree (p q : CanonicalProposal.t) (now : Time) :
  CanonicalProposal.set_Timestamp p now = CanonicalProposal.set_Timestamp q now
  <-> proposals_agree p q.
Proof.
  destruct p, q. unfold proposals_agree, CanonicalProposal.set_Timestamp. simpl.
  split.
  - intros [= -> -> -> -> -> ->]. repeat split.
  - intros (-> & -> & -> & -> & -> & ->). reflexivity.
Qed.

(** X7: what the proposal comparison means.  When the stored step is
    propose, both payloads decode, and the codec decodes back the two
    payloads it re-encodes, the boolean is [true] exactly when stored and
    candidate proposal agree on type, height, round, POL round, block id
    and chain id, that is, differ in nothing but the timestamp. *)
Theorem X7_proposals_differ_only_by_timestamp
  `{Codec} (S : SignState) (new : bytes) (now : Time)
  (lastP newP : CanonicalProposal.t) :
  Step S = stepPropose ->
  UnmarshalProposal (elems (SignBytes S)) = Ok lastP ->
  UnmarshalProposal (elems new) = Ok newP ->
  reencodes (CanonicalProposal.set_Timestamp lastP now) ->
  reencodes (CanonicalProposal.set_Timestamp newP now) ->
  exists same,
    OnlyDifferByTimestamp S new now =
      Ret (CanonicalProposal.Timestamp lastP, same) /\
    (same = true <-> proposals_agree lastP newP).
Proof.
  intros Hs Hl Hn (bl & Hml & Hul) (bn & Hmn & Hun).
  rewrite (OnlyDifferByTimestamp_propose S new now Hs).
  rewrite (checkProposal_decoded _ _ now _ _ Hl Hn).
  eexists; split; [reflexivity|].
  rewrite bytes_Equal_true. unfold reencoded_proposal. rewrite Hml, Hmn. simpl.
  rewrite <- (set_Timestamp_agree lastP newP now). split.
  - intros ->. congruence.
  - intros E. rewrite E in Hml. congruence.
Qed.

Lemma X7_proposals_differ_only_by_timestamp_witness :
  exists same,
    OnlyDifferByTimestamp state_after_P1
      (Some (RefCodec.encode_proposal proposal_P2)) now0 =
      Ret ({| unix_sec := 1600000000; nsec := 5 |}, same) /\
    (same = true <-> proposals_agree proposal_P1 proposal_P2).
Proof.
  apply (X7_proposals_differ_only_by_timestamp state_after_P1
           (Some (RefCodec.encode_proposal proposal_P2)) now0
           proposal_P1 proposal_P2).
  - reflexivity.
  - vm_compute. reflexivity.
  - vm_compute. reflexivity.
  - eexists. split; [reflexivity|]. vm_compute. reflexivity.
  - eexists. split; [reflexivity|]. vm_compute. reflexivity.
Defined.

(** X8: the errors of re-encoding are dropped.  When both payloads decode
    and re-encoding fails for both, the bytes compared are both nil and
    the comparison returns [true], whatever the two payloads are. *)
Theorem X8_failed_reencoding_compares_equal
  `{Codec} (last new : bytes) (now : Time) :
  (forall lastP newP e1 e2,
     UnmarshalProposal (elems last) = Ok lastP ->
     UnmarshalProposal (elems new) = Ok newP ->
     MarshalProposal (CanonicalProposal.set_Timestamp lastP now) = Err e1 ->
     MarshalProposal (CanonicalProposal.set_Timestamp newP now) = Err e2 ->
     checkProposalOnlyDifferByTimestamp last new now =
     Ret (CanonicalProposal.Timestamp lastP, true))
  /\ (forall lastV newV e1 e2,
        UnmarshalVote (elems last) = Ok lastV ->
        UnmarshalVote (elems new) = Ok newV ->
        MarshalJSON_vote (CanonicalVote.set_Timestamp lastV now) = Err e1 ->
        MarshalJSON_vote (CanonicalVote.set_Timestamp newV now) = Err e2 ->
        checkVoteOnlyDifferByTimestamp last new now =
        Ret (CanonicalVote.Timestamp lastV, true)).
Proof.
  split.
  - intros lastP newP e1 e2 Hl Hn H1 H2.
    rewrite (checkProposal_decoded _ _ now _ _ Hl Hn).
    unfold reencoded_proposal. rewrite H1, H2. reflexivity.
  - intros lastV newV e1 e2 Hl Hn H1 H2.
    rewrite (checkVote_decoded _ _ now _ _ Hl Hn).
    unfold reencoded_vote. rewrite H1, H2. reflexivity.
Qed.

Lemma X8_failed_reencoding_compares_equal_witness :
  checkProposalOnlyDifferByTimestamp (H := failing_codec)
    (Some (RefCodec.encode_proposal proposal_P1))
    (Some (RefCodec.encode_proposal proposal_P2)) now0 =
  Ret ({| unix_sec := 1600000000; nsec := 5 |}, true).
Proof.
  destruct (X8_failed_reencoding_compares_equal (H := failing_codec)
              (Some (RefCodec.encode_proposal proposal_P1))
              (Some (RefCodec.encode_proposal proposal_P2)) now0) as [Hp _].
  apply (Hp proposal_P1 proposal_P2 "marshal failed" "marshal failed").
  - vm_compute. reflexivity.
  - vm_compute. reflexivity.
  - reflexivity.
  - reflexivity.
Defined.

(** ** More on saving and loading *)

Lemma ReadFile_saved (fs : gmap string node) (filename : string) data :
  fs !! filename = Some (File data perm_0600) ->
  ReadFile fs filename = Ok data.
Proof. intros E. unfold ReadFile. rewrite E. reflexivity. Qed.

(** X9: a saved state loads back.  With a file path set, a write that
    goes through and a codec that decodes the bytes it produced for the
    state, [LoadSignState] on the disk [Save] leaves returns the decoded
    state, bound to the path it was saved under, and no error. *)
Theorem X9_saved_state_loads_back
  `{Codec} (S decoded : SignState) (fs : gmap string node) (env : io_env)
  (jsonBytes : list byte) :
  filePath S <> "" ->
  MarshalJSONIndent S = Ok jsonBytes ->
  UnmarshalJSON jsonBytes SignState_zero = (decoded, None) ->
  write_succeeds fs (filePath S) env ->
  exists final,
    last (Save S fs env).1 = Some final /\
    LoadSignState final (filePath S) =
    (with_filePath decoded (filePath S), None).
Proof.
  intros Hp Hm Hu Hw.
  destruct (Save_cases S fs env) as [_ Hset].
  destruct (Hset Hp) as [_ Hok].
  destruct (Hok jsonBytes Hm) as (_ & Hgood & _).
  destruct (Hgood Hw) as (_ & final & Hlast & Hfile).
  exists final. split; [exact Hlast|].
  unfold LoadSignState. rewrite (ReadFile_saved _ _ _ Hfile), Hu. reflexivity.
Qed.

Lemma X9_saved_state_loads_back_witness :
  exists final,
    last (Save signed_state ∅ quiet_env).1 = Some final /\
    LoadSignState final "state.json" = (signed_state, None).
Proof.
  apply (X9_saved_state_loads_back signed_state
           (with_filePath signed_state "") ∅ quiet_env
           (RefCodec.encode_state signed_state)).
  - discriminate.
  - reflexivity.
  - vm_compute. reflexivity.
  - split; reflexivity.
Defined.

(** X10: creating the state file is idempotent.  When the load fails, the
    path is set, the write goes through and the codec decodes the bytes of
    the empty state back to it, a second [LoadOrCreateSignState] on the
    disk the first one leaves returns the same empty state and leaves that
    disk as it is. *)
Theorem X10_LoadOrCreateSignState_idempotent
  `{Codec} (fs : gmap string node) (filepath : string) (env env' : io_env)
  (jsonBytes : list byte) :
  let fresh := with_filePath SignState_zero filepath in
  load_fails fs filepath ->
  filepath <> "" ->
  MarshalJSONIndent fresh = Ok jsonBytes ->
  UnmarshalJSON jsonBytes SignState_zero = (SignState_zero, None) ->
  write_succeeds fs filepath env ->
  exists final,
    last (LoadOrCreateSignState fs filepath env).1 = Some final /\
    LoadOrCreateSignState final filepath env' = ([final], Ret (fresh, None)).
Proof.
  intros fresh Hfails Hp Hm Hu Hw.
  destruct (Save_cases fresh fs env) as [_ Hset].
  change (filePath fresh) with filepath in Hset.
  destruct (Hset Hp) as [_ Hok].
  destruct (Hok jsonBytes Hm) as (_ & Hgood & _).
  destruct (Hgood Hw) as (_ & final & Hlast & Hfile).
  exists final. split.
  - unfold LoadOrCreateSignState.
    apply LoadSignState_error in Hfails.
    destruct (LoadSignState fs filepath) as [st [e|]];
      [|destruct Hfails as [? [=]]].
    fold fresh. destruct (Save fresh fs env) as [states saved]. exact Hlast.
  - unfold LoadOrCreateSignState, LoadSignState.
    rewrite (ReadFile_saved _ _ _ Hfile), Hu. reflexivity.
Qed.

Lemma X10_LoadOrCreateSignState_idempotent_witness :
  exists final,
    last (LoadOrCreateSignState corrupt_disk "state.json" quiet_env).1 =
      Some final /\
    LoadOrCreateSignState final "state.json" quiet_env =
    ([final], Ret (with_filePath SignState_zero "state.json", None)).
Proof.
  apply (X10_LoadOrCreateSignState_idempotent corrupt_disk "state.json"
           quiet_env quiet_env
           (RefCodec.encode_state (with_filePath SignState_zero "state.json"))).
  - vm_compute. eauto.
  - discriminate.
  - reflexivity.
  - vm_compute. reflexivity.
  - split; [reflexivity|]. vm_compute. reflexivity.
Defined.


(** X11: a [Save] that returns touches no other file.  On the disk it
    leaves, every path other than the state's own file path holds what it
    held before; in particular the temporary file of the write is gone,
    renamed over the target. *)
Theorem X11_Save_touches_only_its_file
  `{Codec} (S : SignState) (fs final : gmap string node) (env : io_env)
  (other : string) :
  (Save S fs env).2 = Ret tt ->
  last (Save S fs env).1 = Some final ->
  other <> filePath S ->
  final !! other = fs !! other.
Proof.
  unfold Save.
  case_bool_decide as Hp; [intros [=]|].
  destruct (MarshalJSONIndent S) as [jsonBytes|err]; [|intros [=]].
  unfold WriteFileAtomic.
  destruct (fs !! temp_name (filePath S) (temp_suffix env)) eqn:Htmp;
    [intros [=]|].
  destruct (io_fault env) as [[|n| |]|]; simpl; try (intros [=]; fail).
  intros _ [= <-] Hother.
  rewrite lookup_insert_ne by congruence.
  destruct (decide (other = temp_name (filePath S) (temp_suffix env)))
    as [->|Hne].
  - rewrite lookup_delete_eq, Htmp. reflexivity.
  - rewrite lookup_delete_ne, lookup_insert_ne by congruence. reflexivity.
Qed.

Lemma X11_Save_touches_only_its_file_witness :
  exists final,
    last (Save signed_state corrupt_disk quiet_env).1 = Some final /\
    final !! "state.json.tmp0001" = None /\
    final !! "key.json" = corrupt_disk !! "key.json".
Proof.
  eexists. split; [reflexivity|]. split.
  - apply (X11_Save_touches_only_its_file signed_state corrupt_disk _
             quiet_env "state.json.tmp0001").
    + reflexivity.
    + reflexivity.
    + discriminate.
  - apply (X11_Save_touches_only_its_file signed_state corrupt_disk _
             quiet_env "key.json").
    + reflexivity.
    + reflexivity.
    + discriminate.
Defined.

(** ** More on the cosigner key file *)

Section CosignerKey_decoding.

Context `{KeyLibs}.

Lemma parse_pubs_ok (pubs : list (list byte)) (acc keys : list rsa.PublicKey) :
  parse_pubs pubs acc = (keys, None) ->
  exists parsed,
    keys = (acc ++ parsed)%list /\
    Forall2 (fun bz pub => ParsePKCS1PublicKey bz = Ok pub) pubs parsed.
Proof.
  revert acc. induction pubs as [|bz rest IH]; intros acc; simpl.
  - intros [= <-]. exists []. rewrite app_nil_r. split; [reflexivity|constructor].
  - destruct (ParsePKCS1PublicKey bz) as [pub|e] eqn:Hp; [|intros [=]].
    intros Hrest. destruct (IH _ Hrest) as (parsed & -> & Hall).
    exists (pub :: parsed). rewrite <- app_assoc. split; [reflexivity|].
    constructor; assumption.
Qed.

End CosignerKey_decoding.

(** X12: what a successful [UnmarshalJSON] hands back, in either
    revision: secret share and id are those of the JSON object, the RSA
    key is the PKCS#1 parse of [rsa_key], the validator key is the decoding
    of [pub_key], and the peer keys are the PKCS#1 parses of the entries of
    [rsa_pubs], as many and in the same order. *)
Theorem X12_UnmarshalJSON_decodes_each_field
  `{KeyLibs} (data : list byte) (receiver key : CosignerKey) :
  (KeyProto.UnmarshalJSON data receiver = (key, None) ->
   exists aux,
     json_Unmarshal data (aux_of receiver) = (aux, None) /\
     ShareKey key = secret_share aux /\ ID key = id aux /\
     ParsePKCS1PrivateKey (rsa_key aux) = Ok (RSAKey key) /\
     (exists protoPubkey,
        proto_Unmarshal (pub_key aux) = Ok protoPubkey /\
        PubKeyFromProto protoPubkey = Ok (PubKey_ key)) /\
     Forall2 (fun bz pub => ParsePKCS1PublicKey bz = Ok pub)
             (rsa_pubs aux) (CosignerKeys key))
  /\ (KeyAmino.UnmarshalJSON data receiver = (key, None) ->
      exists aux,
        json_Unmarshal data (aux_of receiver) = (aux, None) /\
        ShareKey key = secret_share aux /\ ID key = id aux /\
        ParsePKCS1PrivateKey (rsa_key aux) = Ok (RSAKey key) /\
        (exists k,
           UnmarshalBinaryBare_ed25519 (pub_key aux) = Ok k /\
           PubKey_ key = Some (PubKeyEd25519 k)) /\
        Forall2 (fun bz pub => ParsePKCS1PublicKey bz = Ok pub)
                (rsa_pubs aux) (CosignerKeys key)).
Proof.
  split.
  - unfold KeyProto.UnmarshalJSON.
    destruct (json_Unmarshal data (aux_of receiver)) as [aux [e|]] eqn:Hj;
      [intros [=]|].
    destruct (ParsePKCS1PrivateKey (rsa_key aux)) as [priv|e] eqn:Hpriv;
      [|intros [=]].
    destruct (proto_Unmarshal (pub_key aux)) as [pp|e] eqn:Hpp; [|intros [=]].
    destruct (PubKeyFromProto pp) as [pk|e] eqn:Hpk; [|intros [=]].
    destruct (parse_pubs (rsa_pubs aux) []) as [keys [e|]] eqn:Hpubs;
      intros [= <-].
    destruct (parse_pubs_ok _ _ _ Hpubs) as (parsed & -> & Hall).
    exists aux. simpl.
    split; [reflexivity|]. split; [reflexivity|]. split; [reflexivity|].
    split; [exact Hpriv|]. split; [eauto|exact Hall].
  - unfold KeyAmino.UnmarshalJSON.
    destruct (json_Unmarshal data (aux_of receiver)) as [aux [e|]] eqn:Hj;
      [intros [=]|].
    destruct (ParsePKCS1PrivateKey (rsa_key aux)) as [priv|e] eqn:Hpriv;
      [|intros [=]].
    destruct (UnmarshalBinaryBare_ed25519 (pub_key aux)) as [k|e] eqn:Hk;
      [|intros [=]].
    destruct (parse_pubs (rsa_pubs aux) []) as [keys [e|]] eqn:Hpubs;
      intros [= <-].
    destruct (parse_pubs_ok _ _ _ Hpubs) as (parsed & -> & Hall).
    exists aux. simpl.
    split; [reflexivity|]. split; [reflexivity|]. split; [reflexivity|].
    split; [exact Hpriv|]. split; [eauto|exact Hall].
Qed.

Lemma X12_UnmarshalJSON_decodes_each_field_witness :
  exists aux,
    json_Unmarshal key_json (aux_of CosignerKey_zero) = (aux, None) /\
    ShareKey ed25519_key = secret_share aux /\ ID ed25519_key = id aux /\
    ParsePKCS1PrivateKey (rsa_key aux) = Ok (RSAKey ed25519_key) /\
    (exists protoPubkey,
       proto_Unmarshal (pub_key aux) = Ok protoPubkey /\
       PubKeyFromProto protoPubkey = Ok (PubKey_ ed25519_key)) /\
    Forall2 (fun bz pub => ParsePKCS1PublicKey bz = Ok pub)
            (rsa_pubs aux) (CosignerKeys ed25519_key).
Proof.
  destruct (X12_UnmarshalJSON_decodes_each_field key_json CosignerKey_zero
              ed25519_key) as [Hproto _].
  apply Hproto. vm_compute. reflexivity.
Defined.

(** X13: the amino revision only ever yields an Ed25519 validator key:
    whatever the bytes, the receiver and the libraries, a key that
    [UnmarshalJSON] returns without error holds an Ed25519 public key. *)
Theorem X13_amino_key_is_ed25519
  `{KeyLibs} (data : list byte) (receiver key : CosignerKey) :
  KeyAmino.UnmarshalJSON data receiver = (key, None) ->
  exists k, PubKey_ key = Some (PubKeyEd25519 k).
Proof. apply KeyAmino_decodes_ed25519. Qed.

(** X14: the keys are assigned last.  When [UnmarshalJSON] returns an
    error, in either revision, the receiver still holds the RSA private
    key and the validator key it held before the call. *)
Theorem X14_failed_UnmarshalJSON_keeps_the_keys
  `{KeyLibs} (data : list byte) (receiver key : CosignerKey) (err : error) :
  (KeyProto.UnmarshalJSON data receiver = (key, Some err) ->
   RSAKey key = RSAKey receiver /\ PubKey_ key = PubKey_ receiver)
  /\ (KeyAmino.UnmarshalJSON data receiver = (key, Some err) ->
      RSAKey key = RSAKey receiver /\ PubKey_ key = PubKey_ receiver).
Proof.
  split.
  - unfold KeyProto.UnmarshalJSON.
    destruct (json_Unmarshal data (aux_of receiver)) as [aux [e|]];
      [intros [= <- _]; split; reflexivity|].
    destruct (ParsePKCS1PrivateKey (rsa_key aux));
      [|intros [= <- _]; split; reflexivity].
    destruct (proto_Unmarshal (pub_key aux)) as [pp|];
      [|intros [= <- _]; split; reflexivity].
    destruct (PubKeyFromProto pp); [|intros [= <- _]; split; reflexivity].
    destruct (parse_pubs (rsa_pubs aux) []) as [keys [e|]];
      intros [= <-]; split; reflexivity.
  - unfold KeyAmino.UnmarshalJSON.
    destruct (json_Unmarshal data (aux_of receiver)) as [aux [e|]];
      [intros [= <- _]; split; reflexivity|].
    destruct (ParsePKCS1PrivateKey (rsa_key aux));
      [|intros [= <- _]; split; reflexivity].
    destruct (UnmarshalBinaryBare_ed25519 (pub_key aux));
      [|intros [= <- _]; split; reflexivity].
    destruct (parse_pubs (rsa_pubs aux) []) as [keys [e|]];
      intros [= <-]; split; reflexivity.
Qed.

Lemma X13_amino_key_is_ed25519_witness :
  exists k, PubKey_ ed25519_key = Some (PubKeyEd25519 k).
Proof.
  apply (X13_amino_key_is_ed25519 key_json_amino CosignerKey_zero ed25519_key).
  vm_compute. reflexivity.
Defined.

Lemma X14_failed_UnmarshalJSON_keeps_the_keys_witness :
  RSAKey (KeyProto.UnmarshalJSON [xff%byte] ed25519_key).1 = RSAKey ed25519_key
  /\ PubKey_ (KeyProto.UnmarshalJSON [xff%byte] ed25519_key).1 =
     PubKey_ ed25519_key.
Proof.
  destruct (X14_failed_UnmarshalJSON_keeps_the_keys [xff%byte] ed25519_key
              (KeyProto.UnmarshalJSON [xff%byte] ed25519_key).1
              "wrong length prefix") as [Hproto _].
  apply Hproto. vm_compute. reflexivity.
Defined.

(** ** More on the remote signer *)

(** X15: the response answers the request in kind.  A sign-vote request
    gets a signed-vote response that carries either the vote as the
    validator left it or an error, never both and never neither, and
    likewise a sign-proposal request; a get-pubkey request gets a pubkey
    response without a key when it carries an error; a ping gets a ping
    response; any other message gets no response at all. *)
Theorem X15_response_answers_request
  `{PrivValidator} (chainID : string) (privVal : validator) :
  (forall vote,
     exists v e,
       (handleRequest chainID (SignVoteRequest vote) privVal).1.1 =
         Some (SignedVoteResponse v e) /\
       (v = Some (SignVote chainID vote privVal).1.1 /\ e = None \/
        v = None /\ is_Some e))
  /\ (forall proposal,
        exists p e,
          (handleRequest chainID (SignProposalRequest proposal) privVal).1.1 =
            Some (SignedProposalResponse p e) /\
          (p = Some (SignProposal chainID proposal privVal).1.1 /\ e = None \/
           p = None /\ is_Some e))
  /\ (exists pk e,
        (handleRequest chainID PubKeyRequest privVal).1.1 =
          Some (PubKeyResponse pk e) /\
        (pk = (GetPubKey privVal).1 /\ e = None \/ pk = None /\ is_Some e))
  /\ (handleRequest chainID PingRequest privVal).1.1 = Some PingResponse
  /\ (forall req,
        (forall vote, req <> SignVoteRequest vote) ->
        (forall proposal, req <> SignProposalRequest proposal) ->
        req <> PubKeyRequest -> req <> PingRequest ->
        (handleRequest chainID req privVal).1.1 = None).
Proof.
  unfold handleRequest.
  split; [|split; [|split; [|split]]].
  - intros vote.
    destruct (SignVote chainID vote privVal) as [[v pv'] [err|]]; simpl;
      do 2 eexists; (split; [reflexivity|]); eauto.
  - intros proposal.
    destruct (SignProposal chainID proposal privVal) as [[p pv'] [err|]]; simpl;
      do 2 eexists; (split; [reflexivity|]); eauto.
  - destruct (GetPubKey privVal) as [pk [err|]]; simpl;
      do 2 eexists; (split; [reflexivity|]); eauto.
  - reflexivity.
  - intros req Hv Hp Hk Hping.
    destruct req; try reflexivity;
      [destruct Hk|destruct (Hv vote)|destruct (Hp proposal)|destruct Hping];
      reflexivity.
Qed.

(** X16: when [handleRequest] itself returns an error.  The error
    returned beside the response is non-nil exactly when [SignVote] or
    [SignProposal] failed or the message is none of the four requests; a
    failing [GetPubKey] is reported in the response only, and the error
    returned is nil. *)
Theorem X16_handleRequest_error_iff
  `{PrivValidator} (chainID : string) (req : SignerMessage)
  (privVal : validator) :
  is_Some (handleRequest chainID req privVal).1.2 <->
  (exists vote, req = SignVoteRequest vote /\
                is_Some (SignVote chainID vote privVal).2)
  \/ (exists proposal, req = SignProposalRequest proposal /\
                       is_Some (SignProposal chainID proposal privVal).2)
  \/ ((forall vote, req <> SignVoteRequest vote) /\
      (forall proposal, req <> SignProposalRequest proposal) /\
      req <> PubKeyRequest /\ req <> PingRequest).
Proof.
  unfold handleRequest. destruct req; simpl.
  - destruct (GetPubKey privVal) as [pk [err|]]; simpl;
      (split; [intros [? [=]]|]);
      intros [(? & [=] & _)|[(? & [=] & _)|(_ & _ & ? & _)]]; congruence.
  - split; [intros _; right; right; repeat split; congruence|eauto].
  - destruct (SignVote chainID vote privVal) as [[v pv'] [err|]] eqn:Hs; simpl.
    + split; [intros _; left; exists vote; rewrite Hs; eauto|eauto].
    + split; [intros [? [=]]|].
      intros [(v' & [= <-] & Hf)|[(? & [=] & _)|(Hn & _)]];
        [rewrite Hs in Hf; destruct Hf as [? [=]]|destruct (Hn vote); reflexivity].
  - split; [intros _; right; right; repeat split; congruence|eauto].
  - destruct (SignProposal chainID proposal privVal) as [[p pv'] [err|]] eqn:Hs;
      simpl.
    + split; [intros _; right; left; exists proposal; rewrite Hs; eauto|eauto].
    + split; [intros [? [=]]|].
      intros [(? & [=] & _)|[(p' & [= <-] & Hf)|(_ & Hn & _)]];
        [rewrite Hs in Hf; destruct Hf as [? [=]]
        |destruct (Hn proposal); reflexivity].
  - split; [intros _; right; right; repeat split; congruence|eauto].
  - split; [intros [? [=]]|].
    intros [(? & [=] & _)|[(? & [=] & _)|(_ & _ & _ & ?)]]; congruence.
  - split; [intros _; right; right; repeat split; congruence|eauto].
Qed.

(** X17: a stopped service handles nothing.  In an iteration that finds
    the service not running, at the top of the loop or after dialling,
    nothing is read, handled or sent, the validator is as before, the
    loop does not go round again, and the connection the iteration started
    with is closed. *)
Theorem X17_stopped_service_handles_nothing
  `{PrivValidator} (chainID : string) (conn : option Z) (privVal : validator)
  (env : iteration_env) :
  running_at_top env = false \/ running_after_dial env = false ->
  let r := iteration chainID conn privVal env in
  sent r = None /\ privVal_after r = privVal /\ next r <> Continue /\
  (forall c, conn = Some c -> closed r = [c]).
Proof.
  intros Hstop. unfold iteration.
  destruct (running_at_top env); simpl.
  - destruct Hstop as [[=]|Hd]. rewrite Hd.
    destruct conn as [c|]; simpl.
    + repeat split; try discriminate. intros c' [= <-]. reflexivity.
    + destruct (dial (dial_attempts env)); simpl;
        repeat split; discriminate.
  - repeat split; try discriminate. intros c ->. reflexivity.
Qed.

Lemma X17_stopped_service_handles_nothing_witness :
  sent (iteration "test-chain" (Some 7) signed_state
          {| running_at_top := false; dial_attempts := [];
             running_after_dial := true;
             read_msg := Ok (SignVoteRequest stale_vote);
             write_msg := None |}) = None.
Proof.
  apply (X17_stopped_service_handles_nothing (H := RefValidator.pv)
           "test-chain" (Some 7) signed_state
           {| running_at_top := false; dial_attempts := [];
              running_after_dial := true;
              read_msg := Ok (SignVoteRequest stale_vote);
              write_msg := None |}).
  left. reflexivity.
Defined.

Lemma X15_response_answers_request_witness :
  (handleRequest "test-chain" PingResponse signed_state).1.1 = None.
Proof.
  destruct (X15_response_answers_request (H := RefValidator.pv)
              "test-chain" signed_state) as (_ & _ & _ & _ & Hother).
  apply Hother; discriminate.
Defined.

Lemma X16_handleRequest_error_iff_witness :
  is_Some (handleRequest "test-chain" (SignVoteRequest stale_vote)
             signed_state).1.2.
Proof.
  apply (X16_handleRequest_error_iff (H := RefValidator.pv) "test-chain"
           (SignVoteRequest stale_vote) signed_state).
  left. exists stale_vote. split; [reflexivity|]. vm_compute. eauto.
Defined.

(** ** More on start-up *)

Section Startup_loops.

Lemma cosigner_peers_result key cosigners peers :
  match cosigner_peers key cosigners peers with
  | inl (Ret ps) =>
      exists added,
        ps = (peers ++ added)%list /\ Forall2 (peer_of key) cosigners added /\
        Forall (in_range key) cosigners
  | inl (Panic _) => False
  | inr _ => Exists (fun c => ~ in_range key c) cosigners
  end.
Proof.
  revert peers. induction cosigners as [|c rest IH]; intros peers; simpl.
  { exists []. rewrite app_nil_r. repeat constructor. }
  destruct ((CosignerConfig.ID c <? 1) ||
            (CosignerConfig.ID c >? Z.of_nat (length (CosignerKeys key))))
    eqn:Hguard.
  { apply Exists_cons_hd. unfold in_range.
    apply orb_true_iff in Hguard as [Hlo|Hhi].
    - apply Z.ltb_lt in Hlo. lia.
    - rewrite Z.gtb_ltb in Hhi. apply Z.ltb_lt in Hhi. lia. }
  apply orb_false_iff in Hguard as [Hlo Hhi].
  apply Z.ltb_ge in Hlo. rewrite Z.gtb_ltb in Hhi. apply Z.ltb_ge in Hhi.
  destruct (lookup_lt_is_Some_2 (CosignerKeys key)
              (Z.to_nat (CosignerConfig.ID c - 1))) as [pub Hpub]; [lia|].
  rewrite Hpub. specialize (IH (peers ++ [(CosignerConfig.ID c, pub)])%list).
  destruct (cosigner_peers key rest _) as [[ps|msg]|msg].
  - destruct IH as (added & -> & Hall & Hrange).
    exists ((CosignerConfig.ID c, pub) :: added).
    rewrite <- app_assoc. split; [reflexivity|]. split.
    + constructor; [split; [reflexivity|exact Hpub]|exact Hall].
    + constructor; [unfold in_range; lia|exact Hrange].
  - exact IH.
  - apply Exists_cons_tl, IH.
Qed.

Lemma start_signers_all nodes errors services :
  (forall i err, (i < length nodes)%nat -> errors !! i <> Some (Some err)) ->
  start_signers nodes errors services =
  ((services ++ signers_of nodes)%list, Serving).
Proof.
  revert errors services.
  induction nodes as [|node rest IH]; intros errors services Hok; simpl.
  { rewrite app_nil_r. reflexivity. }
  assert (forall i err, (i < length rest)%nat ->
            tail errors !! i <> Some (Some err)) as Hrest.
  { intros i err Hi. rewrite lookup_tail. apply Hok. simpl. lia. }
  destruct errors as [|[err|] errors'].
  - rewrite (IH _ _ Hrest), <- app_assoc. reflexivity.
  - destruct (Hok 0%nat err); [simpl; lia|reflexivity].
  - rewrite (IH _ _ Hrest), <- app_assoc. reflexivity.
Qed.

Lemma start_signers_fails nodes errors services i err :
  (i < length nodes)%nat ->
  errors !! i = Some (Some err) ->
  (forall j e, (j < i)%nat -> errors !! j <> Some (Some e)) ->
  start_signers nodes errors services =
  ((services ++ signers_of (take i nodes))%list, Panicked err).
Proof.
  revert errors services i.
  induction nodes as [|node rest IH]; intros errors services i Hi Herr Hbefore;
    simpl in *; [lia|].
  destruct i as [|i].
  - destruct errors as [|[e|] errors']; simpl in Herr; try discriminate.
    injection Herr as ->. simpl. rewrite app_nil_r. reflexivity.
  - destruct errors as [|[e|] errors']; simpl in Herr; try discriminate.
    + destruct (Hbefore 0%nat e); [lia|reflexivity].
    + simpl. rewrite (IH errors' _ i); [|lia|exact Herr|].
      * rewrite <- app_assoc. reflexivity.
      * intros j e' Hj. apply (Hbefore (S j) e'). lia.
Qed.

End Startup_loops.

(** X18: the loop over the configured cosigners.  It never indexes the
    peer keys out of range; it stops with [log.Fatalf] exactly when some
    identifier is outside 1..N; otherwise it appends to the peers, in
    configuration order, each cosigner's identifier with the peer key at
    position [ID - 1]. *)
Theorem X18_cosigner_loop
  (key : CosignerKey) (cosigners : list CosignerConfig.t)
  (peers : list (Z * rsa.PublicKey)) :
  (forall msg, cosigner_peers key cosigners peers <> inl (Panic msg))
  /\ ((exists msg, cosigner_peers key cosigners peers = inr msg) <->
      Exists (fun c => ~ in_range key c) cosigners)
  /\ (forall ps,
        cosigner_peers key cosigners peers = inl (Ret ps) ->
        exists added,
          ps = (peers ++ added)%list /\
          Forall2 (peer_of key) cosigners added).
Proof.
  pose proof (cosigner_peers_result key cosigners peers) as Hres.
  destruct (cosigner_peers key cosigners peers) as [[ps|msg]|msg].
  - destruct Hres as (added & -> & Hall & Hrange).
    split; [discriminate|]. split.
    + split; [intros [? [=]]|]. intros Hex.
      apply Exists_exists in Hex as (c & Hin & Hbad).
      rewrite Forall_forall in Hrange. destruct (Hbad (Hrange c Hin)).
    + intros ? [= <-]. eauto.
  - destruct Hres.
  - split; [discriminate|]. split; [|discriminate].
    split; [intros _; exact Hres|eauto].
Qed.

Lemma X18_cosigner_loop_witness :
  exists added,
    cosigner_peers ed25519_key (Config.Cosigners two_cosigners_config)
      [(1, {| rsa.N := 3233; rsa.E := 17 |})] =
      inl (Ret ([(1, {| rsa.N := 3233; rsa.E := 17 |})] ++ added)%list) /\
    Forall2 (peer_of ed25519_key) (Config.Cosigners two_cosigners_config) added.
Proof.
  destruct (X18_cosigner_loop ed25519_key (Config.Cosigners two_cosigners_config)
              [(1, {| rsa.N := 3233; rsa.E := 17 |})]) as (_ & _ & Hok).
  destruct (Hok [(1, {| rsa.N := 3233; rsa.E := 17 |});
                 (2, {| rsa.N := 3127; rsa.E := 3 |});
                 (3, {| rsa.N := 2773; rsa.E := 17 |})] eq_refl)
    as (added & Heq & Hall).
  exists added. split; [|exact Hall]. rewrite <- Heq. reflexivity.
Defined.

(** X19: starting the signers.  When no [Start] fails, one signer per
    configured node is started, in configuration order, after the services
    already running, and [main] goes on to wait; when the [Start] of the
    i-th node is the first to fail, [main] panics with that error and the
    signers of the i nodes before it running. *)
Theorem X19_signers_start_in_order
  (nodes : list NodeConfig.t) (errors : list (option error))
  (services : list service) :
  ((forall i err, (i < length nodes)%nat -> errors !! i <> Some (Some err)) ->
   start_signers nodes errors services =
   ((services ++ signers_of nodes)%list, Serving))
  /\ (forall i err,
        (i < length nodes)%nat ->
        errors !! i = Some (Some err) ->
        (forall j e, (j < i)%nat -> errors !! j <> Some (Some e)) ->
        start_signers nodes errors services =
        ((services ++ signers_of (take i nodes))%list, Panicked err)).
Proof.
  split; [apply start_signers_all|].
  intros i err. apply start_signers_fails.
Qed.

Lemma X19_signers_start_in_order_witness :
  start_signers (Config.Nodes single_config) [None; Some "already started"] [] =
  ([ReconnRemoteSigner "tcp://node-a:1235"], Panicked "already started").
Proof.
  destruct (X19_signers_start_in_order (Config.Nodes single_config)
              [None; Some "already started"] []) as [_ Hfail].
  apply (Hfail 1%nat "already started").
  - simpl. lia.
  - reflexivity.
  - intros j e Hj. assert (j = 0%nat) as -> by lia. discriminate.
Defined.

Section Share_state.

Context `{Codec} `{KeyLibs}.

Variable UnmarshalKey : list byte -> CosignerKey -> CosignerKey * option error.






End Share_state.


Example startup_creates_validator_state_only :
  let r := main KeyProto.UnmarshalJSON (no_share_state_env two_cosigners_config) in
  is_Some (disk_after r !! stateFile_of two_cosigners_config) /\
  disk_after r !! shareStateFile_of two_cosigners_config = None.
Proof. vm_compute. split; [eauto|reflexivity]. Qed.


Lemma X1_CheckHRS_decides_by_nil_witness :
  Replay (CheckHRS signed_state 1 0 stepPropose).
Proof.
  apply (X1_CheckHRS_decides_by_nil signed_state 1 0 stepPropose).
  repeat split; discriminate.
Defined.

Lemma dial_first_connected (failures rest : list dial_outcome) (c : Z) :
  Forall (fun a => forall c', a <> Connected c') failures ->
  dial (failures ++ Connected c :: rest) = Some c.
Proof.
  induction 1 as [|a failures Ha _ IH]; simpl; [reflexivity|].
  destruct a as [e|e|c']; [exact IH|exact IH|destruct (Ha c'); reflexivity].
Qed.

(** X21: reconnecting.  An iteration that starts without a connection,
    with the service running, dials until an attempt connects; with the
    frames passing it then reads the request on that first connection that
    came up, sends the response of [handleRequest], closes nothing and
    keeps the connection for the next iteration. *)
Theorem X21_iteration_reconnects
  `{PrivValidator} (chainID : string) (privVal : validator)
  (env : iteration_env) (failures rest : list dial_outcome) (c : Z)
  (req : SignerMessage) :
  running_at_top env = true ->
  running_after_dial env = true ->
  dial_attempts env = (failures ++ Connected c :: rest)%list ->
  Forall (fun a => forall c', a <> Connected c') failures ->
  read_msg env = Ok req ->
  write_msg env = None ->
  let r := iteration chainID None privVal env in
  conn_after r = Some c /\ closed r = [] /\ next r = Continue /\
  sent r = Some (handleRequest chainID req privVal).1.1 /\
  privVal_after r = (handleRequest chainID req privVal).2.
Proof.
  intros Ht Hd Hdial Hfail Hr Hw. unfold iteration.
  rewrite Ht, Hdial, (dial_first_connected _ _ _ Hfail), Hd, Hr, Hw. simpl.
  destruct (handleRequest chainID req privVal) as [[res err] pv'].
  simpl. auto.
Qed.

Lemma X21_iteration_reconnects_witness :
  conn_after (iteration "test-chain" None signed_state
                (reconnecting_iteration (SignVoteRequest stale_vote))) = Some 9.
Proof.
  apply (X21_iteration_reconnects (H := RefValidator.pv) "test-chain"
           signed_state (reconnecting_iteration (SignVoteRequest stale_vote))
           [DialError "connection refused"; HandshakeError "handshake failed"]
           [] 9 (SignVoteRequest stale_vote)); try reflexivity.
  repeat constructor; discriminate.
Defined.
